(** * Rank-value tokenisation of single-cell expression matrices

    A shallow embedding of [src/data/amc_tokenise_v2.py]: the functions
    [rank_genes] and [tokenize_cell] and the methods [tokenize_data],
    [tokenize_files], [tokenize_anndata], [tokenize_loom] and
    [create_dataset] of the class [TranscriptomeTokenizer], followed by the
    properties that the specification states about them.

    Conventions of the embedding.
    - Expression values, total counts, normalization factors and the target
      sum are IEEE 754 binary64 numbers, as in numpy arrays of dtype
      [float64]; they are modelled by the primitive type [float], whose
      operations are the IEEE ones (round to nearest, ties to even), with
      infinities and NaN.  numpy does not raise when it divides by zero: it
      stores an infinity or NaN, and so does the model.
    - The two per-file functions do not evaluate the normalization alike.
      [tokenize_loom] divides dense arrays: [x / n * target_sum / f], left to
      right.  In [tokenize_anndata] the same expression is applied to [X],
      and when [X] is a scipy sparse matrix its division by a dense array is
      a multiplication by the reciprocal, which gives
      [x * (1 / n) * target_sum * (1 / f)] at the stored entries and leaves
      the others unstored.  A sparse [X] is taken to store exactly its
      non-zero entries.
    - Python exceptions are modelled by the error monad [res]; what [print]
      writes is returned next to the outcome ([py]).
    - Python dictionaries are association lists with distinct keys in
      insertion order ([dict]); the two pickled tables are finite maps.
    - [np.argsort] belongs to numpy and is a parameter of the development;
      what is assumed about it is collected in [ArgsortSpec].
    - The AnnData and loom containers are external; [Matrix] holds what the
      tokenizer reads from them, and [scan] follows the batching of
      [loompy]'s [scan].  The attributes [ensembl_id] and [n_counts] are
      taken to exist, and reading the file to succeed.
    - [save_to_disk] writes to the file system; [tokenize_data] returns the
      path and the dataset that it hands to it.  How [pathlib] renders
      [Path(a) / b] is a parameter. *)

From Stdlib Require Import ZArith QArith Lia Floats Sorted Permutation.
From stdpp Require Import base option list sorting gmap strings.

Set Default Proof Using "Type".
Local Open Scope Z_scope.
Local Open Scope nat_scope.

(** ** Exceptions *)

Inductive exn : Set :=
  | KeyError
  | IndexError
  | UnboundLocalError
  | AttributeError
  | TypeError
  | ValueError
  | ArrowInvalid
  | DatasetGenerationError.

Inductive res (A : Type) : Type :=
  | Ok (a : A)
  | Raise (e : exn).
Arguments Ok {A} a.
Arguments Raise {A} e.

#[global] Instance res_ret : MRet res := fun A a => Ok a.
#[global] Instance res_bind : MBind res := fun A B f m =>
  match m with
  | Ok a => f a
  | Raise e => Raise e
  end.

Definition or_raise {A} (e : exn) (o : option A) : res A :=
  match o with
  | Some a => Ok a
  | None => Raise e
  end.

(** ** numpy primitives used by the tokenizer *)

(** [a[idx]] for an integer index array: every index must be in range. *)
Definition fancy {A} (a : list A) (idx : list nat) : res (list A) :=
  or_raise IndexError (mapM (fun i => a !! i) idx).

Fixpoint where_from (i : nat) (l : list bool) : list nat :=
  match l with
  | [] => []
  | b :: l' => if b then i :: where_from (S i) l' else where_from (S i) l'
  end.

(** [np.where(l)[0]]: the positions that hold [True], ascending. *)
Definition np_where (l : list bool) : list nat := where_from 0 l.

(** [x != 0]: both zeros are zero, NaN is not. *)
Definition is_nonzero (x : float) : bool := negb (x =? 0)%float.

(** [np.nonzero(v)[0]] *)
Definition np_nonzero (v : list float) : list nat :=
  np_where (is_nonzero <$> v).

(** [-v] *)
Definition np_neg (v : list float) : list float := PrimFloat.opp <$> v.

(** The order in which numpy sorts floating point numbers: [a < b], with
    NaN after every other value. *)
Definition np_lt (a b : float) : bool :=
  (a <? b)%float || (is_nan b && negb (is_nan a)).

(** What is assumed of [np.argsort] called without a [kind]: it returns the
    positions of [v] rearranged so that the values ascend in the order of
    numpy's sorts, and, being a comparison sort, its answer depends on the
    values only through the outcome of their pairwise comparisons.  Nothing
    is assumed about the relative order of equal values (the default kind
    is not stable). *)
Record ArgsortSpec (argsort : list float -> list nat) : Prop := {
  argsort_perm : forall v, argsort v ≡ₚ seq 0 (length v);
  argsort_sorted : forall v,
    StronglySorted
      (fun i j => np_lt (nth j v 0%float) (nth i v 0%float) = false)
      (argsort v);
  argsort_cmp : forall v w,
    length v = length w ->
    (forall i j, i < length v -> j < length v ->
       np_lt (nth i v 0%float) (nth j v 0%float)
       = np_lt (nth i w 0%float) (nth j w 0%float)) ->
    argsort v = argsort w
}.

(** ** The two module-level functions *)

Section Ranking.
Variable argsort : list float -> list nat.

Definition rank_genes (gene_vector : list float) (gene_tokens : list Z)
  : res (list Z) :=
  let sorted_indices := argsort (np_neg gene_vector) in
  fancy gene_tokens sorted_indices.

Definition tokenize_cell (gene_vector : list float) (gene_tokens : list Z)
  : res (list Z) :=
  let nonzero_mask := np_nonzero gene_vector in
  gv ← fancy gene_vector nonzero_mask;
  gt ← fancy gene_tokens nonzero_mask;
  rank_genes gv gt.
End Ranking.

(** A sort that meets [ArgsortSpec]: insertion of the positions from the
    last to the first, each before the values already placed that are not
    smaller. *)
Fixpoint insert_idx (v : list float) (i : nat) (l : list nat) : list nat :=
  match l with
  | [] => [i]
  | j :: l' =>
      if np_lt (nth j v 0%float) (nth i v 0%float)
      then j :: insert_idx v i l'
      else i :: j :: l'
  end.

Definition argsort_stable (v : list float) : list nat :=
  foldr (insert_idx v) [] (seq 0 (length v)).

(** ** Python dictionaries

    A [dict] keeps its keys distinct and in insertion order; assigning to a
    key that is present replaces the value where it stands. *)

Definition dict (V : Type) : Type := list (string * V).

Fixpoint dict_get {V} (k : string) (d : dict V) : option V :=
  match d with
  | [] => None
  | (k', v) :: d' => if decide (k = k') then Some v else dict_get k d'
  end.

Fixpoint dict_set {V} (k : string) (v : V) (d : dict V) : dict V :=
  match d with
  | [] => [(k, v)]
  | (k', v') :: d' =>
      if decide (k = k') then (k, v) :: d' else (k', v') :: dict_set k v d'
  end.

Definition dict_keys {V} (d : dict V) : list string := d.*1.
Definition dict_values {V} (d : dict V) : list V := d.*2.

(** [d.update(d')] *)
Definition dict_update {V} (d d' : dict V) : dict V :=
  foldl (fun acc kv => dict_set kv.1 kv.2 acc) d d'.

(** [{k: [] for k in ks}] *)
Definition dict_of_empty_lists {V} (ks : list string) : dict (list V) :=
  foldl (fun acc k => dict_set k [] acc) [] ks.

(** ** Values and containers *)

Inductive pyval : Type :=
  | PyInt (z : Z)
  | PyFloat (x : float)
  | PyStr (s : string)
  | PyTokens (l : list Z).

(** One cell of an expression matrix: its total count, its raw expression
    value at every gene column, its [filter_pass] flag (read only when the
    container declares the attribute) and its other per-cell attributes. *)
Record Cell : Type := {
  n_counts : float;
  counts : nat -> float;
  filter_pass : Z;
  cell_attr : string -> pyval
}.

(** What the tokenizer reads from an AnnData or a loom container: the gene
    identifier of every column, the cells in row order, whether the per-cell
    attribute [filter_pass] exists, the names of the further per-cell
    attributes, and whether [X] is held as a sparse matrix (which matters to
    [tokenize_anndata] only).  (In a loom file genes are rows and cells are
    columns; the value at gene [j] of cell [c] is [counts c j] in both.) *)
Record Matrix : Type := {
  path : string;
  ensembl_id : list string;
  cells : list Cell;
  has_filter_pass : bool;
  attr_names : list string;
  X_sparse : bool
}.

Definition has_attr (m : Matrix) (k : string) : bool :=
  bool_decide (k = "n_counts"%string)
  || (bool_decide (k = "filter_pass"%string) && has_filter_pass m)
  || bool_decide (k ∈ attr_names m).

Definition get_attr (c : Cell) (k : string) : pyval :=
  if decide (k = "n_counts"%string) then PyFloat (n_counts c)
  else if decide (k = "filter_pass"%string) then PyInt (filter_pass c)
  else cell_attr c k.

(** [view.obs[k].tolist()] / [view.ca[k].tolist()] on the selected cells;
    [missing] is the exception of the container for an absent attribute. *)
Definition attr_column (missing : exn) (m : Matrix) (sub : list Cell)
    (k : string) : res (list pyval) :=
  if has_attr m k then Ok ((fun c => get_attr c k) <$> sub) else Raise missing.

Record TranscriptomeTokenizer : Type := {
  custom_attr_name_dict : option (dict string);
  nproc : nat;
  gene_median_dict : gmap string float;
  gene_token_dict : gmap string Z
}.

Definition gene_keys (self : TranscriptomeTokenizer) : list string :=
  (map_to_list (gene_median_dict self)).*1.

Definition genelist_dict (self : TranscriptomeTokenizer) : gmap string bool :=
  list_to_map (zip (gene_keys self) (replicate (length (gene_keys self)) true)).

(** Output written by [print], then the outcome. *)
Definition py (A : Type) : Type := (list string * res A)%type.

(** State of the local variable [file_cell_metadata]. *)
Inductive metadata_var : Type :=
  | Unbound
  | IsNone
  | IsDict (d : dict (list pyval)).

(** [range(start, stop, step)] for [step >= 1]. *)
Fixpoint range_fuel (fuel start stop step : nat) : list nat :=
  match fuel with
  | 0 => []
  | S fuel' =>
      if decide (start < stop)
      then start :: range_fuel fuel' (start + step) stop step
      else []
  end.

Definition py_range (start stop step : nat) : res (list nat) :=
  if decide (step = 0) then Raise ValueError
  else Ok (range_fuel stop start stop step).

(** A [for] loop whose body may raise. *)
Fixpoint for_ {A S} (l : list A) (body : A -> S -> res S) (s : S) : res S :=
  match l with
  | [] => Ok s
  | x :: l' => s' ← body x s; for_ l' body s'
  end.

#[global] Instance res_fmap : FMap res := fun A B f m =>
  match m with
  | Ok a => Ok (f a)
  | Raise e => Raise e
  end.

(** The entries of [a] at the positions where [mask] holds. *)
Fixpoint compress {A} (mask : list bool) (a : list A) : list A :=
  match mask, a with
  | b :: mask', x :: a' =>
      if b then x :: compress mask' a' else compress mask' a'
  | _, _ => []
  end.

(** Row [i] of a CSR matrix built from a dense one: the stored values are the
    non-zero entries, in column order, and [indices] are their columns. *)
Definition csr_data (row : list float) : list float :=
  List.filter is_nonzero row.
Definition csr_indices (row : list float) : list nat := np_nonzero row.

(** [d[ks]] for every key, as in [[d[i] for i in ks]]. *)
Definition lookup_all {V} (d : gmap string V) (ks : list string)
  : res (list V) :=
  or_raise KeyError (mapM (fun i => d !! i) ks).

(** Batch size of [loompy]'s [scan] when none is given. *)
Definition loom_batch_size : nat := 512.

(** [data.scan(items=items, axis=1)]: the columns are visited in batches of
    [loom_batch_size]; a batch yields a view of those of its columns that are
    in [items], and a batch without any is passed over. *)
Definition scan (ncols : nat) (items : list nat) : list (list nat) :=
  filter (fun sel => sel ≠ [])
    ((fun ix =>
        filter (fun it => ix <= it < ix + Nat.min (ncols - ix) loom_batch_size)
               items)
       <$> range_fuel ncols 0 ncols loom_batch_size).

(** ** The class [TranscriptomeTokenizer] *)

Section Tokenizer.
Variable argsort : list float -> list nat.
Variable self : TranscriptomeTokenizer.

Definition coding_miRNA_loc (ids : list string) : list nat :=
  np_where ((fun i => default false (genelist_dict self !! i)) <$> ids).

(** Lines 199-211 and 262-274: the eligible columns, their normalization
    factors and their tokens. *)
Definition gene_columns (ids : list string)
  : res (list nat * list float * list Z) :=
  let loc := coding_miRNA_loc ids in
  sel ← fancy ids loc;
  norm_factor_vector ← lookup_all (gene_median_dict self) sel;
  coding_miRNA_ids ← fancy ids loc;
  coding_miRNA_tokens ← lookup_all (gene_token_dict self) coding_miRNA_ids;
  Ok (loc, norm_factor_vector, coding_miRNA_tokens).

(** Lines 213-228 and 277-292: the cells to tokenize, with what is printed
    while they are determined. *)
Definition filter_pass_loc (m : Matrix) : list string * list nat :=
  if has_filter_pass m
  then ([],
        np_where ((fun c => bool_decide (filter_pass c = 1%Z)) <$> cells m))
  else ([(path m ++
          " has no column attribute 'filter_pass'; tokenizing all cells.")%string],
        seq 0 (length (cells m))).

(** Lines 302-307, the column of [subview_norm_array] that belongs to the
    cell [c]: dense arrays, divided and multiplied entry by entry. *)
Definition subview_norm_column (target_sum : float) (loc : list nat)
    (norm_factor_vector : list float) (c : Cell) : list float :=
  zip_with (fun x f => (x / n_counts c * target_sum / f)%float)
           (counts c <$> loc) norm_factor_vector.

(** Lines 237-238, the row of [X_norm] that belongs to the cell [c], as its
    [data] and its [indices].  A dense [X_view] is divided like the loom
    array, and [sp.csr_matrix] then stores the entries that are not zero.
    A sparse [X_view] is multiplied by the reciprocals [1 / n_counts] and
    [1 / norm_factor_vector] at its stored entries, which stay stored
    whatever their product is. *)
Definition X_norm_row (sparse : bool) (target_sum : float) (loc : list nat)
    (norm_factor_vector : list float) (c : Cell) : list float * list nat :=
  let X_view := counts c <$> loc in
  if sparse then
    let stored := is_nonzero <$> X_view in
    (compress stored
       (zip_with
          (fun x f => (x * (1 / n_counts c) * target_sum * (1 / f))%float)
          X_view norm_factor_vector),
     np_where stored)
  else
    let row :=
      zip_with (fun x f => (x / n_counts c * target_sum / f)%float)
               X_view norm_factor_vector in
    (csr_data row, csr_indices row).

(** The branch on [custom_attr_name_dict] that ends the body of both
    loops: every requested attribute of the cells at hand is appended. *)
Definition add_metadata (missing : exn) (m : Matrix) (sub : list Cell)
    (file_cell_metadata : metadata_var) : res metadata_var :=
  match custom_attr_name_dict self with
  | Some _ =>
      match file_cell_metadata with
      | IsDict d =>
          IsDict <$>
            for_ (dict_keys d)
              (fun k d =>
                 old ← or_raise KeyError (dict_get k d);
                 col ← attr_column missing m sub k;
                 Ok (dict_set k (old ++ col) d))
              d
      | IsNone => Raise AttributeError
      | Unbound => Raise UnboundLocalError
      end
  | None => Ok IsNone
  end.

(** [return tokenized_cells, file_cell_metadata] *)
Definition return_file (st : list (list Z) * metadata_var)
  : res (list (list Z) * option (dict (list pyval))) :=
  match st.2 with
  | Unbound => Raise UnboundLocalError
  | IsNone => Ok (st.1, None)
  | IsDict d => Ok (st.1, Some d)
  end.

Definition initial_metadata : metadata_var :=
  match custom_attr_name_dict self with
  | Some d => IsDict (dict_of_empty_lists (dict_keys d))
  | None => Unbound
  end.

(** Body of the loop of [tokenize_anndata] for the chunk that starts at
    position [i] of [filter_pass_loc]. *)
Definition anndata_chunk (m : Matrix) (target_sum : float) (chunk_size : nat)
    (loc : list nat) (norm_factor_vector : list float)
    (coding_miRNA_tokens : list Z) (fpl : list nat)
    (i : nat) (st : list (list Z) * metadata_var)
  : res (list (list Z) * metadata_var) :=
  let idx := take chunk_size (drop i fpl) in
  sub ← fancy (cells m) idx;
  let X_norm :=
    X_norm_row (X_sparse m) target_sum loc norm_factor_vector <$> sub in
  new ← mapM (fun row : list float * list nat =>
                tokens ← fancy coding_miRNA_tokens row.2;
                rank_genes argsort row.1 tokens)
             X_norm;
  let tokenized_cells := st.1 ++ new in
  file_cell_metadata ← add_metadata KeyError m sub st.2;
  Ok (tokenized_cells, file_cell_metadata).

Definition tokenize_anndata (m : Matrix) (target_sum : float)
    (chunk_size : nat)
  : py (list (list Z) * option (dict (list pyval))) :=
  match gene_columns (ensembl_id m) with
  | Raise e => ([], Raise e)
  | Ok (loc, norm_factor_vector, coding_miRNA_tokens) =>
      let '(out, fpl) := filter_pass_loc m in
      (out,
       starts ← py_range 0 (length fpl) chunk_size;
       st ← for_ starts
              (anndata_chunk m target_sum chunk_size loc norm_factor_vector
                 coding_miRNA_tokens fpl)
              ([], initial_metadata);
       return_file st)
  end.

(** Body of the loop of [tokenize_loom] for one view of the scan. *)
Definition loom_view (m : Matrix) (target_sum : float)
    (loc : list nat) (norm_factor_vector : list float)
    (coding_miRNA_tokens : list Z)
    (selection : list nat) (st : list (list Z) * metadata_var)
  : res (list (list Z) * metadata_var) :=
  sub ← fancy (cells m) selection;
  let subview_norm_array :=
    subview_norm_column target_sum loc norm_factor_vector <$> sub in
  new ← mapM (fun v => tokenize_cell argsort v coding_miRNA_tokens)
             subview_norm_array;
  let tokenized_cells := st.1 ++ new in
  file_cell_metadata ← add_metadata AttributeError m sub st.2;
  Ok (tokenized_cells, file_cell_metadata).

Definition tokenize_loom (m : Matrix) (target_sum : float)
  : py (list (list Z) * option (dict (list pyval))) :=
  match gene_columns (ensembl_id m) with
  | Raise e => ([], Raise e)
  | Ok (loc, norm_factor_vector, coding_miRNA_tokens) =>
      let '(out, fpl) := filter_pass_loc m in
      (out,
       st ← for_ (scan (length (cells m)) fpl)
              (loom_view m target_sum loc norm_factor_vector
                 coding_miRNA_tokens)
              ([], initial_metadata);
       return_file st)
  end.

Definition default_target_sum : float := 10000.
Definition default_chunk_size : nat := 512.

Definition tokenize_files (m : Matrix) (file_format : string)
  : py (list (list Z) * option (dict (list pyval))) :=
  let tokenized_cells : list (list Z) := [] in
  let '(out, file) :=
    if decide (file_format = "loom"%string)
    then tokenize_loom m default_target_sum
    else tokenize_anndata m default_target_sum default_chunk_size in
  (("Tokenizing " ++ path m)%string :: out,
   '(file_tokenized_cells, file_cell_metadata) ← file;
   cell_metadata ←
     match custom_attr_name_dict self with
     | Some d =>
         Some <$>
           for_ (dict_keys d)
             (fun k cell_metadata =>
                name ← or_raise KeyError (dict_get k d);
                old ← or_raise KeyError (dict_get name cell_metadata);
                fcm ← or_raise TypeError file_cell_metadata;
                col ← or_raise KeyError (dict_get k fcm);
                Ok (dict_set name (old ++ col) cell_metadata))
             (dict_of_empty_lists (dict_values d))
     | None => Ok None
     end;
   Ok (tokenized_cells, cell_metadata)).
End Tokenizer.

(** ** Assembling the dataset *)

(** A dataset is the list of its rows; a row maps column names to values. *)
Definition Dataset : Type := list (dict pyval).

(** [v[0:2048]] *)
Definition crop (v : pyval) : res pyval :=
  match v with
  | PyTokens l => Ok (PyTokens (take 2048 l))
  | PyStr s => Ok (PyStr (String.substring 0 2048 s))
  | _ => Raise TypeError
  end.

(** [len(v)] *)
Definition py_len (v : pyval) : res Z :=
  match v with
  | PyTokens l => Ok (Z.of_nat (length l))
  | PyStr s => Ok (Z.of_nat (String.length s))
  | _ => Raise TypeError
  end.

Definition getitem (example : dict pyval) (k : string) : res pyval :=
  or_raise KeyError (dict_get k example).

Definition format_cell_features (keep_uncropped_input_ids : bool)
    (example : dict pyval) : res (dict pyval) :=
  example ←
    (if keep_uncropped_input_ids then
       ids ← getitem example "input_ids";
       let example := dict_set "input_ids_uncropped" ids example in
       ids ← getitem example "input_ids";
       n ← py_len ids;
       Ok (dict_set "length_uncropped" (PyInt n) example)
     else Ok example);
  ids ← getitem example "input_ids";
  cropped ← crop ids;
  let example := dict_set "input_ids" cropped example in
  ids ← getitem example "input_ids";
  n ← py_len ids;
  Ok (dict_set "length" (PyInt n) example).

(** [{k: dataset_dict[k][i] for k in dataset_dict.keys()}] *)
Definition row_at (dataset_dict : dict (list pyval)) (i : nat)
  : res (dict pyval) :=
  mapM (fun kc : string * list pyval =>
          v ← or_raise IndexError (kc.2 !! i); Ok (kc.1, v))
       dataset_dict.

(** [Dataset.from_dict]: the columns must be equally long. *)
Definition from_dict (dataset_dict : dict (list pyval)) : res Dataset :=
  match dataset_dict with
  | [] => Ok []
  | (_, c0) :: _ =>
      if forallb (fun kc : string * list pyval =>
                    Nat.eqb (length kc.2) (length c0)) dataset_dict
      then mapM (row_at dataset_dict) (seq 0 (length c0))
      else Raise ArrowInvalid
  end.

(** [Dataset.from_generator] on the rows that the generator yields: a
    generator that yields nothing, or that raises, makes it fail with a
    [DatasetGenerationError]. *)
Definition from_generator (rows : res (list (dict pyval))) : res Dataset :=
  match rows with
  | Ok [] => Raise DatasetGenerationError
  | Ok rows => Ok rows
  | Raise _ => Raise DatasetGenerationError
  end.

Section Assembler.
Variable argsort : list float -> list nat.
Variable self : TranscriptomeTokenizer.

(** [str(Path(a) / b)] *)
Variable path_join : string -> string -> string.

Definition create_dataset (tokenized_cells : list (list Z))
    (cell_metadata : option (dict (list pyval)))
    (use_generator keep_uncropped_input_ids : bool) : py Dataset :=
  (["Creating dataset."%string],
   let dataset_dict : dict (list pyval) :=
     [("input_ids"%string, PyTokens <$> tokenized_cells)] in
   dataset_dict ←
     match custom_attr_name_dict self with
     | Some _ =>
         md ← or_raise TypeError cell_metadata;
         Ok (dict_update dataset_dict md)
     | None => Ok dataset_dict
     end;
   output_dataset ←
     (if use_generator
      then
        let dict_generator :=
          mapM (row_at dataset_dict) (seq 0 (length tokenized_cells)) in
        from_generator dict_generator
      else from_dict dataset_dict);
   mapM (format_cell_features keep_uncropped_input_ids) output_dataset).

(** [tokenize_data]: what is printed, and the path and the dataset that are
    handed to [save_to_disk]. *)
Definition tokenize_data (m : Matrix) (output_directory output_prefix : string)
    (file_format : string) (use_generator : bool)
  : py (string * Dataset) :=
  match tokenize_files argsort self m file_format with
  | (out, Raise e) => (out, Raise e)
  | (out, Ok (tokenized_cells, cell_metadata)) =>
      match create_dataset tokenized_cells cell_metadata use_generator false
      with
      | (out', Raise e) => (out ++ out', Raise e)
      | (out', Ok tokenized_dataset) =>
          let output_path := path_join output_directory output_prefix in
          (out ++ out'
             ++ [("Inside tokeniser function ::: Saving file to... "
                  ++ output_path)%string],
           Ok (output_path, tokenized_dataset))
      end
  end.

End Assembler.


(** ** Sample inputs *)

(** The catalog of the worked example of the specification:
    GENE_A has factor 1 and token 0, GENE_B has factor 2 and token 1. *)
Definition sample_tokenizer : TranscriptomeTokenizer := {|
  custom_attr_name_dict := None;
  nproc := 1;
  gene_median_dict :=
    {[ "GENE_A"%string := 1%float; "GENE_B"%string := 2%float ]};
  gene_token_dict := {[ "GENE_A"%string := 0%Z; "GENE_B"%string := 1%Z ]}
|}.


Definition sample_cell (n : float) (xs : list float) (flag : Z) : Cell := {|
  n_counts := n;
  counts := fun j => nth j xs 0%float;
  filter_pass := flag;
  cell_attr := fun _ => PyStr "T"
|}.

(** Three columns, the middle one of a gene the catalog does not know;
    [X] is sparse. *)
Definition sample_matrix (flagged : bool) (cs : list Cell) : Matrix := {|
  path := "cells";
  ensembl_id := ["GENE_A"%string; "GENE_X"%string; "GENE_B"%string];
  cells := cs;
  has_filter_pass := flagged;
  attr_names := ["cell_type"%string];
  X_sparse := true
|}.

(** The sample catalog with two custom attributes requested. *)
Definition sample_tokenizer_attrs : TranscriptomeTokenizer := {|
  custom_attr_name_dict :=
    Some [("cell_type"%string, "ct"%string); ("n_counts"%string, "n"%string)];
  nproc := 1;
  gene_median_dict := gene_median_dict sample_tokenizer;
  gene_token_dict := gene_token_dict sample_tokenizer
|}.

(** The sample catalog with an attribute requested that the sample matrix
    does not have. *)
Definition sample_tokenizer_batch : TranscriptomeTokenizer := {|
  custom_attr_name_dict := Some [("batch"%string, "b"%string)];
  nproc := 1;
  gene_median_dict := gene_median_dict sample_tokenizer;
  gene_token_dict := gene_token_dict sample_tokenizer
|}.

(** A rendering of [Path(a) / b] for relative [b] and [a] without a
    trailing separator. *)
Definition sample_path_join (a b : string) : string := (a ++ "/" ++ b)%string.

(** ** Notions used in the statements *)

(** What the loop body of [tokenize_loom] does with one cell. *)
Definition loom_cell (argsort : list float -> list nat) (target_sum : float)
    (loc : list nat) (norm_factor_vector : list float)
    (coding_miRNA_tokens : list Z) (c : Cell) : res (list Z) :=
  tokenize_cell argsort
    (subview_norm_column target_sum loc norm_factor_vector c)
    coding_miRNA_tokens.

(** What the loop body of [tokenize_anndata] does with one cell. *)
Definition anndata_cell (argsort : list float -> list nat) (sparse : bool)
    (target_sum : float) (loc : list nat) (norm_factor_vector : list float)
    (coding_miRNA_tokens : list Z) (c : Cell) : res (list Z) :=
  let row := X_norm_row sparse target_sum loc norm_factor_vector c in
  tokens ← fancy coding_miRNA_tokens row.2;
  rank_genes argsort row.1 tokens.

(** What a per-file tokenization amounts to on the list [sub] of the cells
    it includes, [tok] being what it does with one cell: nothing is visited
    when the list is empty; otherwise every cell is tokenized, and the
    requested attributes of all of them are collected. *)
Definition tokenize_cells (self : TranscriptomeTokenizer) (missing : exn)
    (m : Matrix) (tok : Cell -> res (list Z)) (sub : list Cell)
  : res (list (list Z) * option (dict (list pyval))) :=
  match sub with
  | [] => return_file ([], initial_metadata self)
  | _ =>
      new ← mapM tok sub;
      md ← add_metadata self missing m sub (initial_metadata self);
      return_file (new, md)
  end.

(** The cells a matrix offers for tokenization. *)
Definition included (m : Matrix) : list Cell :=
  if has_filter_pass m
  then filter (fun c => filter_pass c = 1%Z) (cells m)
  else cells m.

Definition is_positive (x : float) : bool := (0 <? x)%float.

(** [a] may stand before [b] when values descend and NaN comes last. *)
Definition np_ge (a b : float) : bool := is_nan b || (b <=? a)%float.

(** The positions that [mask] selects, in the order in which [rank_genes]
    arranges the values found there. *)
Definition ranked (argsort : list float -> list nat) (mask : list bool)
    (vals : list float) : list nat :=
  (fun k => nth k (np_where mask) 0) <$> argsort (np_neg (compress mask vals)).

(** The columns of the tokens that [tokenize_cell] returns, in the order in
    which it returns them. *)
Definition ranked_idx (argsort : list float -> list nat) (v : list float)
  : list nat :=
  ranked argsort (is_nonzero <$> v) v.

(** The tokens of one cell in [tokenize_loom], as a total function. *)
Definition loom_tokens (argsort : list float -> list nat) (target_sum : float)
    (loc : list nat) (norm_factor_vector : list float)
    (coding_miRNA_tokens : list Z) (c : Cell) : list Z :=
  (fun i => nth i coding_miRNA_tokens 0%Z)
    <$> ranked_idx argsort
          (subview_norm_column target_sum loc norm_factor_vector c).

(** The values of a sparse [X_norm] at every kept column of the cell [c]. *)
Definition sparse_values (target_sum : float) (loc : list nat)
    (norm_factor_vector : list float) (c : Cell) : list float :=
  zip_with (fun x f => (x * (1 / n_counts c) * target_sum * (1 / f))%float)
           (counts c <$> loc) norm_factor_vector.

(** The tokens of one cell in [tokenize_anndata], as a total function. *)
Definition anndata_tokens (argsort : list float -> list nat) (sparse : bool)
    (target_sum : float) (loc : list nat) (norm_factor_vector : list float)
    (coding_miRNA_tokens : list Z) (c : Cell) : list Z :=
  if sparse then
    (fun i => nth i coding_miRNA_tokens 0%Z)
      <$> ranked argsort (is_nonzero <$> (counts c <$> loc))
            (sparse_values target_sum loc norm_factor_vector c)
  else loom_tokens argsort target_sum loc norm_factor_vector
         coding_miRNA_tokens c.

(** The entries of [a] at the positions [idx] that exist. *)
Definition pick {A} (a : list A) (idx : list nat) : list A :=
  omap (fun i => a !! i) idx.

(** Every column of [d] extended by the attribute of the cells [sub] that
    its key names. *)
Definition extend_columns (missing : exn) (m : Matrix) (sub : list Cell)
    (d : dict (list pyval)) : res (dict (list pyval)) :=
  if forallb (has_attr m) (dict_keys d)
  then Ok ((fun kv : string * list pyval =>
              (kv.1, kv.2 ++ ((fun c => get_attr c kv.1) <$> sub))) <$> d)
  else Raise missing.

(** What one pass of either loop does to the state, given the cells [sub]
    of the chunk and the per-cell tokens [ct]. *)
Definition visit (self : TranscriptomeTokenizer) (missing : exn) (m : Matrix)
    (ct : Cell -> list Z) (sub : list Cell)
    (st : list (list Z) * metadata_var) : res (list (list Z) * metadata_var) :=
  md ← add_metadata self missing m sub st.2;
  Ok (st.1 ++ (ct <$> sub), md).

(** States of [file_cell_metadata] that the loops can be in. *)
Definition good_state (self : TranscriptomeTokenizer)
    (st : list (list Z) * metadata_var) : Prop :=
  match custom_attr_name_dict self with
  | Some _ => exists d, st.2 = IsDict d /\ NoDup (dict_keys d)
  | None => True
  end.

(** Place of a float in the order of numpy's sorts: its class (NaN last),
    then exponent and mantissa, mirrored for negative numbers. *)
Definition sort_key (x : spec_float) : Z * Z * Z :=
  match x with
  | S754_nan => (3, 0, 0)
  | S754_infinity false => (2, 0, 0)
  | S754_infinity true => (-2, 0, 0)
  | S754_zero _ => (0, 0, 0)
  | S754_finite false m e => (1, e, Z.pos m)
  | S754_finite true m e => (-1, - e, Z.neg m)
  end%Z.

Definition key_lt (a b : Z * Z * Z) : bool :=
  ((a.1.1 <? b.1.1) || ((a.1.1 =? b.1.1) &&
     ((a.1.2 <? b.1.2) || ((a.1.2 =? b.1.2) && (a.2 <? b.2)))))%Z.


(** No two entries of [v] are equal in the order of numpy's sorts. *)
Definition no_ties (v : list float) : bool :=
  forallb (fun i =>
    forallb (fun j =>
      Nat.eqb i j
      || np_lt (nth i v 0%float) (nth j v 0%float)
      || np_lt (nth j v 0%float) (nth i v 0%float))
      (seq 0 (length v)))
    (seq 0 (length v)).






(** * Properties *)

(** ** The error monad *)

Lemma mapM_res_ok {A B} (f : A -> res B) (g : A -> B) (l : list A) :
  (forall x, x ∈ l -> f x = Ok (g x)) -> mapM f l = Ok (g <$> l).
Proof.
  induction l as [|x l IH]; intros Hf; [done|].
  cbn. rewrite (Hf x) by left. cbn.
  rewrite IH by (intros y Hy; apply Hf; by right). done.
Qed.

Lemma mapM_res_length {A B} (f : A -> res B) (l : list A) (r : list B) :
  mapM f l = Ok r -> length r = length l.
Proof.
  revert r. induction l as [|x l IH]; intros r; cbn.
  - by intros [= <-].
  - destruct (f x) as [y|]; cbn; [|done].
    destruct (mapM f l) as [k|]; cbn; [|done].
    intros [= <-]. cbn. f_equal. by apply IH.
Qed.

Lemma mapM_res_lookup {A B} (f : A -> res B) (l : list A) (r : list B) i x :
  mapM f l = Ok r -> l !! i = Some x -> exists y, r !! i = Some y /\ f x = Ok y.
Proof.
  revert r i. induction l as [|a l IH]; intros r i; cbn; [done|].
  destruct (f a) as [y|] eqn:Ha; cbn; [|done].
  destruct (mapM f l) as [k|]; cbn; [|done].
  intros [= <-]. destruct i as [|i]; cbn.
  - intros [= <-]. eauto.
  - intros Hi. by apply IH.
Qed.

Lemma mapM_res_ext {A B} (f g : A -> res B) (l : list A) :
  (forall x, x ∈ l -> f x = g x) -> mapM f l = mapM g l.
Proof.
  induction l as [|x l IH]; intros Hf; [done|].
  cbn. rewrite (Hf x) by left.
  rewrite IH by (intros y Hy; apply Hf; by right). done.
Qed.

(** ** Index arrays *)

Lemma fancy_ok {A} (d : A) (a : list A) (idx : list nat) :
  Forall (fun i => i < length a) idx ->
  fancy a idx = Ok ((fun i => nth i a d) <$> idx).
Proof.
  intros Hidx. unfold fancy.
  assert (mapM (fun i => a !! i) idx = Some ((fun i => nth i a d) <$> idx))
    as ->; [|done].
  apply mapM_Some. induction Hidx as [|i idx Hi _ IH]; cbn; constructor; auto.
  destruct (lookup_lt_is_Some_2 a i Hi) as [x Hx]. rewrite Hx. f_equal.
  symmetry. by apply nth_lookup_Some.
Qed.

Lemma elem_of_where_from s l j :
  j ∈ where_from s l <-> exists k, j = s + k /\ l !! k = Some true.
Proof.
  revert s. induction l as [|b l IH]; intros s; cbn.
  - split; [by intros ?%elem_of_nil|by intros (k & _ & ?)].
  - assert (j ∈ where_from (S s) l <->
            exists k, j = s + S k /\ l !! k = Some true) as IH'.
    { rewrite IH. split; intros (k & -> & Hk); exists k; split; auto; lia. }
    destruct b.
    + rewrite elem_of_cons, IH'. split.
      * intros [->|(k & -> & Hk)]; [exists 0|exists (S k)]; split; auto; lia.
      * intros ([|k] & -> & Hk); [left; lia|right; eauto].
    + rewrite IH'. split.
      * intros (k & -> & Hk). exists (S k). auto.
      * intros ([|k] & -> & Hk); [done|eauto].
Qed.

Lemma where_from_sorted s l : StronglySorted lt (where_from s l).
Proof.
  revert s. induction l as [|b l IH]; intros s; cbn; [constructor|].
  destruct b; [|apply IH]. constructor; [apply IH|].
  apply list.Forall_forall. intros j Hj.
  apply elem_of_where_from in Hj as (k & -> & _). lia.
Qed.

Lemma where_from_lt s l : Forall (fun j => j < s + length l) (where_from s l).
Proof.
  apply list.Forall_forall. intros j Hj.
  apply elem_of_where_from in Hj as (k & -> & Hk%lookup_lt_Some). lia.
Qed.

Lemma elem_of_np_where l j : j ∈ np_where l <-> l !! j = Some true.
Proof.
  unfold np_where. rewrite elem_of_where_from. split.
  - by intros (k & -> & Hk).
  - intros Hj. by exists j.
Qed.

Lemma np_where_lt l : Forall (fun j => j < length l) (np_where l).
Proof. apply (where_from_lt 0). Qed.

Lemma np_where_NoDup l : NoDup (np_where l).
Proof.
  pose proof (where_from_sorted 0 l) as Hs. unfold np_where.
  induction Hs as [|j k _ IH Hj]; constructor; auto.
  intros Hin. rewrite list.Forall_forall in Hj.
  apply Hj in Hin. lia.
Qed.

(** Taking the entries of [a] at the positions where [f] holds is
    filtering [a] by [f]. *)
Lemma where_from_filter {A} (d : A) (f : A -> bool) (pre a : list A) :
  (fun i => nth i (pre ++ a) d) <$> where_from (length pre) (f <$> a)
  = List.filter f a.
Proof.
  revert pre. induction a as [|x a IH]; intros pre; [done|].
  assert ((fun i => nth i (pre ++ x :: a) d)
            <$> where_from (S (length pre)) (f <$> a) = List.filter f a) as IH'.
  { specialize (IH (pre ++ [x])).
    rewrite <- app_assoc, length_app, Nat.add_1_r in IH. exact IH. }
  cbn. destruct (f x); cbn; rewrite IH'; [|done].
  f_equal. rewrite app_nth2, Nat.sub_diag by lia. done.
Qed.

Lemma np_where_filter {A} (d : A) (f : A -> bool) (a : list A) :
  (fun i => nth i a d) <$> np_where (f <$> a) = List.filter f a.
Proof. apply (where_from_filter d f []). Qed.

Lemma fancy_np_where {A} (f : A -> bool) (a : list A) :
  fancy a (np_where (f <$> a)) = Ok (List.filter f a).
Proof.
  destruct a as [|d a'] eqn:Ha; [done|]. rewrite <- Ha.
  rewrite (fancy_ok d), np_where_filter; [done|].
  pose proof (np_where_lt (f <$> a)) as H. by rewrite length_fmap in H.
Qed.

Lemma fancy_seq {A} (a : list A) : fancy a (seq 0 (length a)) = Ok a.
Proof.
  destruct a as [|d a'] eqn:Ha; [done|]. rewrite <- Ha.
  rewrite (fancy_ok d).
  - f_equal. apply list_eq. intros i. rewrite list_lookup_fmap.
    destruct (decide (i < length a)) as [Hi|Hi].
    + rewrite lookup_seq_lt by done. cbn.
      destruct (lookup_lt_is_Some_2 a i Hi) as [x Hx]. rewrite Hx. f_equal.
      by apply nth_lookup_Some.
    + rewrite lookup_seq_ge, lookup_ge_None_2 by lia. done.
  - apply list.Forall_forall. intros i Hi%elem_of_seq. lia.
Qed.

Lemma filter_bool_decide {A} (P : A -> Prop) `{forall x, Decision (P x)}
    (l : list A) :
  List.filter (fun x => bool_decide (P x)) l = filter P l.
Proof.
  induction l as [|x l IH]; [done|].
  rewrite filter_cons. cbn [List.filter]. rewrite IH.
  destruct (decide (P x)) as [Hx|Hx].
  - by rewrite bool_decide_eq_true_2.
  - by rewrite bool_decide_eq_false_2.
Qed.

Lemma fancy_Forall2 {A} (a : list A) (idx : list nat) (r : list A) :
  fancy a idx = Ok r -> Forall2 (fun i x => a !! i = Some x) idx r.
Proof.
  unfold fancy. destruct (mapM _ idx) as [k|] eqn:Hk; cbn; [|done].
  intros [= <-]. by apply mapM_Some in Hk.
Qed.

Lemma lookup_all_Forall2 {V} (d : gmap string V) (ks : list string) r :
  lookup_all d ks = Ok r -> Forall2 (fun k v => d !! k = Some v) ks r.
Proof.
  unfold lookup_all. destruct (mapM _ ks) as [k|] eqn:Hk; cbn; [|done].
  intros [= <-]. by apply mapM_Some in Hk.
Qed.

(** ** The catalog *)

Lemma elem_of_zip_replicate {A B} (x : A) (b : B) (l : list A) :
  x ∈ l -> (x, b) ∈ zip l (replicate (length l) b).
Proof.
  induction l as [|y l IH]; [by intros ?%elem_of_nil|].
  cbn. intros [->|Hx]%elem_of_cons; [left|right; auto].
Qed.

(** A gene is eligible exactly when it has a normalization factor. *)
Lemma genelist_dict_spec (self : TranscriptomeTokenizer) (g : string) :
  default false (genelist_dict self !! g) = true
  <-> is_Some (gene_median_dict self !! g).
Proof.
  unfold genelist_dict, gene_keys. split.
  - destruct (list_to_map _ !! g) as [b|] eqn:Hb; cbn; [|done]. intros _.
    apply elem_of_list_to_map_2, elem_of_zip_l in Hb.
    apply list_elem_of_fmap in Hb as ([g' v] & -> & Hv).
    apply elem_of_map_to_list in Hv. by exists v.
  - intros [v Hv]. apply elem_of_map_to_list in Hv.
    assert (g ∈ (map_to_list (gene_median_dict self)).*1) as Hg.
    { apply list_elem_of_fmap. by exists (g, v). }
    apply (elem_of_zip_replicate g true) in Hg.
    apply elem_of_list_to_map_1 in Hg as ->; [done|].
    rewrite fst_zip by (by rewrite length_replicate).
    apply NoDup_fst_map_to_list.
Qed.

Lemma elem_of_coding_miRNA_loc self ids j :
  j ∈ coding_miRNA_loc self ids
  <-> exists g, ids !! j = Some g /\ is_Some (gene_median_dict self !! g).
Proof.
  unfold coding_miRNA_loc. rewrite elem_of_np_where, list_lookup_fmap.
  destruct (ids !! j) as [g|]; cbn.
  - split.
    + intros [= Hg]. exists g. split; [done|]. by apply genelist_dict_spec.
    + intros (g' & [= <-] & Hg). f_equal. by apply genelist_dict_spec.
  - split; [done|]. by intros (g & ? & _).
Qed.

Lemma coding_miRNA_loc_lt self ids :
  Forall (fun j => j < length ids) (coding_miRNA_loc self ids).
Proof.
  pose proof (np_where_lt
    ((fun i => default false (genelist_dict self !! i)) <$> ids)) as H.
  by rewrite length_fmap in H.
Qed.

(** What [gene_columns] returns: the eligible columns, and for each of them
    the factor and the token that the catalog gives its gene. *)
Lemma gene_columns_spec self ids loc nfv toks :
  gene_columns self ids = Ok (loc, nfv, toks) ->
  loc = coding_miRNA_loc self ids
  /\ Forall2 (fun j f => exists g, ids !! j = Some g
                         /\ gene_median_dict self !! g = Some f) loc nfv
  /\ Forall2 (fun j t => exists g, ids !! j = Some g
                         /\ gene_token_dict self !! g = Some t) loc toks.
Proof.
  unfold gene_columns.
  destruct (fancy ids _) as [sel|] eqn:Hsel; cbn; [|done].
  destruct (lookup_all (gene_median_dict self) sel) as [nfv'|] eqn:Hn;
    cbn; [|done].
  destruct (lookup_all (gene_token_dict self) sel) as [toks'|] eqn:Ht;
    cbn; [|done].
  intros [= <- <- <-]. split; [done|].
  apply fancy_Forall2 in Hsel.
  apply lookup_all_Forall2 in Hn. apply lookup_all_Forall2 in Ht.
  split.
  - eapply Forall2_trans; [|exact Hsel|exact Hn]. cbn. eauto.
  - eapply Forall2_trans; [|exact Hsel|exact Ht]. cbn. eauto.
Qed.

Lemma gene_columns_length self ids loc nfv toks :
  gene_columns self ids = Ok (loc, nfv, toks) ->
  length nfv = length loc /\ length toks = length loc.
Proof.
  intros (_ & H1 & H2)%gene_columns_spec.
  apply Forall2_length in H1. apply Forall2_length in H2. lia.
Qed.

(** The factors are always found; only a gene without a token can make
    [gene_columns] fail. *)
Lemma gene_columns_ok self ids :
  (forall g, g ∈ ids -> is_Some (gene_median_dict self !! g) ->
             is_Some (gene_token_dict self !! g)) ->
  exists loc nfv toks, gene_columns self ids = Ok (loc, nfv, toks).
Proof.
  intros Htok. unfold gene_columns.
  pose proof (coding_miRNA_loc_lt self ids) as Hlt.
  destruct ids as [|d ids'] eqn:Hids; [by eexists _, _, _|]. rewrite <- Hids in *.
  rewrite (fancy_ok d) by done. cbn.
  set (sel := (fun i => nth i ids d) <$> coding_miRNA_loc self ids).
  assert (Forall (fun g => g ∈ ids /\ is_Some (gene_median_dict self !! g)) sel)
    as Hsel.
  { apply Forall_fmap, list.Forall_forall. intros j Hj. cbn.
    apply elem_of_coding_miRNA_loc in Hj as (g & Hg & Hm).
    rewrite (nth_lookup_Some _ _ d _ Hg).
    split; [by eapply list_elem_of_lookup_2|done]. }
  assert (exists nfv, mapM (fun i => gene_median_dict self !! i) sel = Some nfv)
    as [nfv Hn].
  { clear -Hsel. induction Hsel as [|g sel [_ [v Hv]] _ [nfv IH]];
      [by exists []|].
    exists (v :: nfv). cbn. by rewrite Hv, IH. }
  assert (exists toks, mapM (fun i => gene_token_dict self !! i) sel = Some toks)
    as [toks Ht].
  { clear -Hsel Htok. induction Hsel as [|g sel [Hg Hm] _ [toks IH]];
      [by exists []|].
    destruct (Htok g Hg Hm) as [t Ht].
    exists (t :: toks). cbn. by rewrite Ht, IH. }
  unfold lookup_all. rewrite Hn. cbn. rewrite Ht. cbn. by eexists _, _, _.
Qed.


(** ** The order of floating point numbers *)

Lemma is_nan_spec x :
  is_nan x = match Prim2SF x with S754_nan => true | _ => false end.
Proof.
  unfold is_nan. rewrite FloatAxioms.eqb_spec. unfold SFeqb.
  destruct (Prim2SF x) as [s|s| |s m e]; cbn; try done; try (by destruct s).
  destruct s; cbn; rewrite Z.compare_refl, Pos.compare_cont_refl; done.
Qed.

Lemma is_nonzero_spec x :
  is_nonzero x = match Prim2SF x with S754_zero _ => false | _ => true end.
Proof.
  unfold is_nonzero. rewrite FloatAxioms.eqb_spec.
  change (Prim2SF 0) with (S754_zero false). unfold SFeqb.
  by destruct (Prim2SF x) as [s|s| |s m e]; try destruct s.
Qed.

Ltac float_cases m e m' e' :=
  change (PosDef.Pos.compare_cont Eq m m') with (Z.pos m ?= Z.pos m')%Z;
  destruct (Z.compare_spec e e'), (Z.compare_spec (Z.pos m) (Z.pos m'));
  cbn [CompOpp];
  repeat match goal with
  | |- context [(?x <? ?y)%Z] => destruct (Z.ltb_spec x y)
  | |- context [(?x =? ?y)%Z] => destruct (Z.eqb_spec x y)
  end; cbn; try reflexivity; lia.

Lemma np_lt_key a b :
  np_lt a b = key_lt (sort_key (Prim2SF a)) (sort_key (Prim2SF b)).
Proof.
  unfold np_lt. rewrite FloatAxioms.ltb_spec, !is_nan_spec.
  unfold SFltb, key_lt.
  destruct (Prim2SF a) as [s|s| |s m e], (Prim2SF b) as [s'|s'| |s' m' e'];
    try destruct s; try destruct s'; cbn -[Z.ltb Z.eqb Z.compare]; try done;
    float_cases m e m' e'.
Qed.

Lemma ltb_key a b :
  (a <? b)%float
  = key_lt (sort_key (Prim2SF a)) (sort_key (Prim2SF b)) && negb (is_nan b).
Proof.
  rewrite <- np_lt_key. unfold np_lt. rewrite !is_nan_spec.
  rewrite FloatAxioms.ltb_spec. unfold SFltb.
  by destruct (Prim2SF a) as [s|s| |s m e], (Prim2SF b) as [s'|s'| |s' m' e'];
    try destruct s; try destruct s'; cbn -[Z.compare];
    rewrite ?orb_false_r, ?andb_true_r.
Qed.

Lemma leb_key a b :
  (a <=? b)%float
  = negb (key_lt (sort_key (Prim2SF b)) (sort_key (Prim2SF a)))
    && negb (is_nan a) && negb (is_nan b).
Proof.
  rewrite !is_nan_spec, FloatAxioms.leb_spec. unfold SFleb, key_lt.
  destruct (Prim2SF a) as [s|s| |s m e], (Prim2SF b) as [s'|s'| |s' m' e'];
    try destruct s; try destruct s'; cbn -[Z.ltb Z.eqb Z.compare]; try done.
  all: rewrite ?andb_true_r.
  all: change (PosDef.Pos.compare_cont Eq m m') with (Z.pos m ?= Z.pos m')%Z;
    destruct (Z.compare_spec e e'), (Z.compare_spec (Z.pos m) (Z.pos m'));
    cbn [CompOpp];
    repeat match goal with
    | |- context [(?x <? ?y)%Z] => destruct (Z.ltb_spec x y)
    | |- context [(?x =? ?y)%Z] => destruct (Z.eqb_spec x y)
    end; cbn; try reflexivity; lia.
Qed.

Lemma key_lt_spec a b :
  key_lt a b = true <->
  (a.1.1 < b.1.1
   \/ (a.1.1 = b.1.1
       /\ (a.1.2 < b.1.2 \/ (a.1.2 = b.1.2 /\ a.2 < b.2))))%Z.
Proof.
  unfold key_lt.
  rewrite !orb_true_iff, !andb_true_iff, !orb_true_iff, !andb_true_iff,
    !Z.ltb_lt, !Z.eqb_eq. done.
Qed.

Lemma key_lt_irrefl a : key_lt a a = false.
Proof. unfold key_lt. by rewrite !Z.ltb_irrefl, !Z.eqb_refl. Qed.

Lemma key_lt_asym a b : key_lt a b = true -> key_lt b a = false.
Proof.
  intros H. apply not_true_iff_false. revert H. rewrite !key_lt_spec. lia.
Qed.

Lemma key_lt_trans a b c :
  key_lt a b = true -> key_lt b c = true -> key_lt a c = true.
Proof. rewrite !key_lt_spec. lia. Qed.

Lemma key_lt_negtrans a b c :
  key_lt a b = false -> key_lt b c = false -> key_lt a c = false.
Proof. rewrite <- !not_true_iff_false, !key_lt_spec. lia. Qed.

Lemma np_lt_irrefl a : np_lt a a = false.
Proof. rewrite np_lt_key. apply key_lt_irrefl. Qed.

Lemma np_lt_asym a b : np_lt a b = true -> np_lt b a = false.
Proof. rewrite !np_lt_key. apply key_lt_asym. Qed.

Lemma np_lt_negtrans a b c :
  np_lt a b = false -> np_lt b c = false -> np_lt a c = false.
Proof. rewrite !np_lt_key. apply key_lt_negtrans. Qed.

(** Ascending after negation is descending with NaN last. *)
Lemma np_lt_opp a b : np_lt (- b) (- a) = negb (np_ge a b).
Proof.
  unfold np_lt, np_ge.
  rewrite FloatAxioms.ltb_spec, FloatAxioms.leb_spec, !is_nan_spec, !opp_spec.
  unfold SFltb, SFleb.
  destruct (Prim2SF a) as [s|s| |s m e], (Prim2SF b) as [s'|s'| |s' m' e'];
    try destruct s; try destruct s'; cbn -[Z.compare]; try done.
  all: change (PosDef.Pos.compare_cont Eq m' m) with (Z.pos m' ?= Z.pos m)%Z.
  all: destruct (Z.compare_spec e' e), (Z.compare_spec (Z.pos m') (Z.pos m));
    cbn; try reflexivity; lia.
Qed.



Lemma nonneg_not_nan x : (0 <=? x)%float = true -> is_nan x = false.
Proof.
  rewrite leb_key. destruct (is_nan x); [|done].
  by rewrite andb_false_r.
Qed.

Lemma nonneg_nonzero_pos x :
  (0 <=? x)%float = true -> is_nonzero x = is_positive x.
Proof.
  unfold is_positive.
  rewrite is_nonzero_spec, FloatAxioms.leb_spec, FloatAxioms.ltb_spec.
  change (Prim2SF 0) with (S754_zero false). unfold SFleb, SFltb.
  by destruct (Prim2SF x) as [s|s| |s m e]; try destruct s.
Qed.

Lemma positive_nonzero x : is_positive x = true -> is_nonzero x = true.
Proof.
  unfold is_positive.
  rewrite is_nonzero_spec, FloatAxioms.ltb_spec.
  change (Prim2SF 0) with (S754_zero false). unfold SFltb.
  by destruct (Prim2SF x) as [s|s| |s m e]; try destruct s.
Qed.

(** A value below zero stands after a value above zero. *)
Lemma np_ge_neg_pos a b :
  (a <? 0)%float = true -> (0 <? b)%float = true -> np_ge a b = false.
Proof.
  unfold np_ge. rewrite !ltb_key, leb_key.
  intros [Ha _]%andb_true_iff [Hb Hnan]%andb_true_iff.
  apply negb_true_iff in Hnan. rewrite Hnan.
  by rewrite (key_lt_trans _ _ _ Ha Hb).
Qed.

(** ** Sorting by insertion meets [ArgsortSpec] *)

Lemma insert_idx_perm v i l : insert_idx v i l ≡ₚ i :: l.
Proof.
  induction l as [|j l IH]; cbn; [done|].
  destruct (np_lt _ _); [|done].
  rewrite IH. apply Permutation_swap.
Qed.

Lemma insert_idx_sorted v i l :
  StronglySorted (fun i j => np_lt (nth j v 0%float) (nth i v 0%float) = false)
    l ->
  StronglySorted (fun i j => np_lt (nth j v 0%float) (nth i v 0%float) = false)
    (insert_idx v i l).
Proof.
  induction 1 as [|j l Hl IH Hj]; cbn.
  - repeat constructor.
  - destruct (np_lt (nth j v 0%float) (nth i v 0%float)) eqn:Htest.
    + constructor; [done|]. rewrite insert_idx_perm.
      constructor; [by apply np_lt_asym|done].
    + constructor; [by constructor|]. constructor; [done|].
      eapply Forall_impl; [exact Hj|]. cbn. intros k Hk.
      by eapply np_lt_negtrans.
Qed.

Lemma insert_idx_cmp v w n i l :
  (forall i j, i < n -> j < n ->
     np_lt (nth i v 0%float) (nth j v 0%float)
     = np_lt (nth i w 0%float) (nth j w 0%float)) ->
  i < n -> Forall (fun j => j < n) l ->
  insert_idx v i l = insert_idx w i l.
Proof.
  intros Hcmp Hi. induction 1 as [|j l Hj _ IH]; cbn; [done|].
  by rewrite (Hcmp j i), IH.
Qed.

Lemma argsort_stable_spec : ArgsortSpec argsort_stable.
Proof.
  unfold argsort_stable. split.
  - intros v. generalize (seq 0 (length v)) as l.
    induction l as [|i l IH]; cbn; [done|].
    by rewrite insert_idx_perm, IH.
  - intros v. generalize (seq 0 (length v)) as l.
    induction l as [|i l IH]; cbn; [constructor|].
    by apply insert_idx_sorted.
  - intros v w Hlen Hcmp. rewrite <- Hlen.
    assert (Forall (fun j => j < length v) (seq 0 (length v))) as Hl.
    { apply list.Forall_forall. intros j Hj%elem_of_seq. lia. }
    revert Hl. generalize (seq 0 (length v)) as l.
    induction l as [|i l IH]; intros Hl; cbn; [done|].
    apply Forall_cons in Hl as [Hi Hl]. rewrite <- IH by done.
    apply (insert_idx_cmp v w (length v)); [done..|].
    clear -Hl. induction l as [|j l IH]; cbn; [done|].
    apply Forall_cons in Hl as [Hj Hl].
    rewrite insert_idx_perm. constructor; auto.
Qed.

(** ** Ranking *)

Lemma StronglySorted_impl_elem {A} (R R' : A -> A -> Prop) (l : list A) :
  (forall a b, a ∈ l -> b ∈ l -> R a b -> R' a b) ->
  StronglySorted R l -> StronglySorted R' l.
Proof.
  intros HR Hl. induction Hl as [|a l Hl IH Ha]; constructor.
  - apply IH. intros x y Hx Hy. apply HR; by right.
  - rewrite list.Forall_forall in *. intros b Hb.
    apply HR; [left|by right|by apply Ha].
Qed.

Lemma StronglySorted_fmap {A B} (R : B -> B -> Prop) (f : A -> B) (l : list A) :
  StronglySorted (fun a b => R (f a) (f b)) l -> StronglySorted R (f <$> l).
Proof.
  induction 1 as [|a l Hl IH Ha]; cbn; constructor; [done|].
  by apply Forall_fmap.
Qed.

Lemma nth_fmap_lt {A B} (f : A -> B) (l : list A) (d : A) (d' : B) k :
  k < length l -> nth k (f <$> l) d' = f (nth k l d).
Proof.
  intros Hk. rewrite (nth_indep _ d' (f d)) by (by rewrite length_fmap).
  apply map_nth.
Qed.

Lemma nth_seq_self (l : list nat) :
  (fun k => nth k l 0) <$> seq 0 (length l) = l.
Proof.
  apply list_eq. intros i. rewrite list_lookup_fmap.
  destruct (decide (i < length l)) as [Hi|Hi].
  - rewrite lookup_seq_lt by done. cbn.
    destruct (lookup_lt_is_Some_2 l i Hi) as [x Hx]. rewrite Hx. f_equal.
    by apply nth_lookup_Some.
  - rewrite lookup_seq_ge, lookup_ge_None_2 by lia. done.
Qed.

Lemma np_nonzero_lt v : Forall (fun j => j < length v) (np_nonzero v).
Proof.
  pose proof (np_where_lt (is_nonzero <$> v)) as H.
  by rewrite length_fmap in H.
Qed.

Lemma compress_where_from {A} (d : A) (mask : list bool) (pre a : list A) :
  length mask <= length a ->
  compress mask a
  = (fun i => nth i (pre ++ a) d) <$> where_from (length pre) mask.
Proof.
  revert pre a. induction mask as [|b mask IH]; intros pre [|x a] Hlen;
    cbn in *; try done; try lia.
  assert (compress mask a
          = (fun i => nth i (pre ++ x :: a) d)
              <$> where_from (S (length pre)) mask) as IH'.
  { specialize (IH (pre ++ [x]) a).
    rewrite <- app_assoc, length_app, Nat.add_1_r in IH. apply IH. lia. }
  destruct b; cbn; rewrite IH'; [|done].
  f_equal. rewrite app_nth2, Nat.sub_diag by lia. done.
Qed.

(** The selected entries are the entries at the selected positions. *)
Lemma compress_nth {A} (d : A) (mask : list bool) (a : list A) :
  length mask <= length a ->
  compress mask a = (fun i => nth i a d) <$> np_where mask.
Proof. apply (compress_where_from d mask []). Qed.

Lemma length_compress {A} (mask : list bool) (a : list A) :
  length mask <= length a ->
  length (compress mask a) = length (np_where mask).
Proof.
  intros Hlen. destruct a as [|d a'] eqn:Ha.
  - destruct mask; [done|cbn in Hlen; lia].
  - rewrite <- Ha in *. by rewrite (compress_nth d), length_fmap.
Qed.

Lemma compress_fmap {A} (f : A -> bool) (a : list A) :
  compress (f <$> a) a = List.filter f a.
Proof.
  induction a as [|x a IH]; [done|]. cbn. rewrite IH. by destruct (f x).
Qed.

Lemma csr_data_compress v : csr_data v = compress (is_nonzero <$> v) v.
Proof. symmetry. apply compress_fmap. Qed.

Lemma csr_data_nonzero v :
  csr_data v = (fun i => nth i v 0%float) <$> np_nonzero v.
Proof. symmetry. apply np_where_filter. Qed.

Lemma fancy_np_nonzero v : fancy v (np_nonzero v) = Ok (csr_data v).
Proof. apply fancy_np_where. Qed.

Lemma length_np_nonzero v : length (np_nonzero v) = length (csr_data v).
Proof. by rewrite csr_data_nonzero, length_fmap. Qed.

Lemma elem_of_np_nonzero v j :
  j ∈ np_nonzero v <-> j < length v /\ is_nonzero (nth j v 0%float) = true.
Proof.
  unfold np_nonzero. rewrite elem_of_np_where, list_lookup_fmap. split.
  - destruct (v !! j) as [x|] eqn:Hx; cbn; [|done]. intros [= Hnz].
    split; [by eapply lookup_lt_Some|].
    by rewrite (nth_lookup_Some _ _ _ _ Hx).
  - intros [Hj Hnz]. destruct (lookup_lt_is_Some_2 v j Hj) as [x Hx].
    rewrite Hx. cbn. f_equal. by rewrite (nth_lookup_Some _ _ 0%float _ Hx) in Hnz.
Qed.

Lemma NoDup_fmap_nth {A} (d : A) (l : list A) (idx : list nat) :
  NoDup l -> NoDup idx -> Forall (fun i => i < length l) idx ->
  NoDup ((fun i => nth i l d) <$> idx).
Proof.
  intros Hl Hidx Hlt. apply NoDup_fmap_2_strong; [|done].
  rewrite list.Forall_forall in Hlt.
  intros i j Hi%Hlt Hj%Hlt Heq.
  destruct (lookup_lt_is_Some_2 l i Hi) as [x Hx].
  destruct (lookup_lt_is_Some_2 l j Hj) as [y Hy].
  rewrite (nth_lookup_Some _ _ d _ Hx), (nth_lookup_Some _ _ d _ Hy) in Heq.
  subst y. by apply (NoDup_lookup l i j x).
Qed.

Section RankingFacts.
Variable argsort : list float -> list nat.
Hypothesis Hspec : ArgsortSpec argsort.

Lemma argsort_neg_perm mask vals :
  length mask <= length vals ->
  argsort (np_neg (compress mask vals)) ≡ₚ seq 0 (length (np_where mask)).
Proof using Hspec.
  intros Hlen. rewrite (argsort_perm _ Hspec). unfold np_neg.
  by rewrite length_fmap, length_compress.
Qed.

Lemma ranked_perm mask vals :
  length mask <= length vals -> ranked argsort mask vals ≡ₚ np_where mask.
Proof using Hspec.
  intros Hlen. unfold ranked. rewrite argsort_neg_perm by done.
  by rewrite nth_seq_self.
Qed.


Lemma ranked_NoDup mask vals :
  length mask <= length vals -> NoDup (ranked argsort mask vals).
Proof using Hspec.
  intros Hlen. rewrite ranked_perm by done. apply np_where_NoDup.
Qed.

(** The values at the returned positions descend, NaN last. *)
Lemma ranked_sorted mask vals :
  length mask <= length vals ->
  StronglySorted
    (fun i j => np_ge (nth i vals 0%float) (nth j vals 0%float) = true)
    (ranked argsort mask vals).
Proof using Hspec.
  intros Hlen. unfold ranked. apply StronglySorted_fmap.
  eapply StronglySorted_impl_elem;
    [|apply (argsort_sorted _ Hspec (np_neg (compress mask vals)))].
  assert (forall a, a ∈ argsort (np_neg (compress mask vals)) ->
            nth a (np_neg (compress mask vals)) 0%float
            = (- nth (nth a (np_where mask) 0%nat) vals 0)%float) as Hnth.
  { intros a Ha. rewrite argsort_neg_perm in Ha by done.
    apply elem_of_seq in Ha as [_ Ha]. cbn in Ha.
    unfold np_neg. rewrite (nth_fmap_lt _ _ 0%float)
      by (by rewrite length_compress).
    by rewrite (compress_nth 0%float), (nth_fmap_lt _ _ 0). }
  intros a b Ha Hb Hle. cbn beta in Hle.
  rewrite (Hnth a Ha), (Hnth b Hb), np_lt_opp in Hle.
  by apply negb_false_iff.
Qed.

(** [rank_genes] on the selected values and the tokens of their
    positions. *)
Lemma rank_genes_ranked mask vals toks :
  length mask <= length vals ->
  Forall (fun i => i < length toks) (np_where mask) ->
  (tokens ← fancy toks (np_where mask);
   rank_genes argsort (compress mask vals) tokens)
  = Ok ((fun i => nth i toks 0%Z) <$> ranked argsort mask vals).
Proof using Hspec.
  intros Hlen Hcov. rewrite (fancy_ok 0%Z) by done. cbn.
  unfold rank_genes. rewrite (fancy_ok 0%Z).
  - f_equal. unfold ranked. rewrite <- list_fmap_compose.
    apply Forall_fmap_ext_1, list.Forall_forall. intros a Ha. cbn.
    rewrite argsort_neg_perm in Ha by done.
    apply elem_of_seq in Ha as [_ Ha].
    by rewrite (nth_fmap_lt _ _ 0).
  - apply list.Forall_forall. intros a Ha.
    rewrite argsort_neg_perm in Ha by done.
    apply elem_of_seq in Ha as [_ Ha]. by rewrite length_fmap.
Qed.

Lemma ranked_idx_perm v : ranked_idx argsort v ≡ₚ np_nonzero v.
Proof using Hspec. apply ranked_perm. by rewrite length_fmap. Qed.

Lemma ranked_idx_elem v j :
  j ∈ ranked_idx argsort v
  <-> j < length v /\ is_nonzero (nth j v 0%float) = true.
Proof using Hspec. by rewrite ranked_idx_perm, elem_of_np_nonzero. Qed.

Lemma ranked_idx_NoDup v : NoDup (ranked_idx argsort v).
Proof using Hspec. apply ranked_NoDup. by rewrite length_fmap. Qed.

Lemma length_ranked_idx v :
  length (ranked_idx argsort v) = length (List.filter is_nonzero v).
Proof using Hspec. rewrite ranked_idx_perm. apply length_np_nonzero. Qed.

Lemma ranked_idx_sorted v :
  StronglySorted
    (fun i j => np_ge (nth i v 0%float) (nth j v 0%float) = true)
    (ranked_idx argsort v).
Proof using Hspec. apply ranked_sorted. by rewrite length_fmap. Qed.

Lemma tokenize_cell_ranked_covered v toks :
  (forall i, i < length v -> is_nonzero (nth i v 0%float) = true ->
             i < length toks) ->
  tokenize_cell argsort v toks
  = Ok ((fun i => nth i toks 0%Z) <$> ranked_idx argsort v).
Proof using Hspec.
  intros Hcov. unfold tokenize_cell. cbv zeta.
  rewrite fancy_np_nonzero. cbn. rewrite csr_data_compress.
  apply rank_genes_ranked; [by rewrite length_fmap|].
  apply list.Forall_forall. intros i [Hi Hnz]%elem_of_np_nonzero. auto.
Qed.

Lemma tokenize_cell_ranked v toks :
  length v <= length toks ->
  tokenize_cell argsort v toks
  = Ok ((fun i => nth i toks 0%Z) <$> ranked_idx argsort v).
Proof using Hspec.
  intros Hlen. apply tokenize_cell_ranked_covered. intros i Hi _. lia.
Qed.
End RankingFacts.

(** A row of the CSR matrix made from a dense row is ranked as
    [tokenize_cell] ranks the dense row. *)
Lemma csr_row_tokenize_cell argsort row toks :
  (tokens ← fancy toks (csr_indices row);
   rank_genes argsort (csr_data row) tokens)
  = tokenize_cell argsort row toks.
Proof.
  unfold tokenize_cell. cbv zeta. by rewrite fancy_np_nonzero.
Qed.

Lemma filter_nonzero_positive v :
  Forall (fun x => (0 <=? x)%float = true) v ->
  List.filter is_nonzero v = List.filter is_positive v.
Proof.
  induction 1 as [|x v Hx _ IH]; [done|]. cbn.
  by rewrite IH, (nonneg_nonzero_pos x).
Qed.

(** C3: for a normalized vector (entries non-negative) with aligned token
    ids (one distinct token per column, taken from the catalog), the
    sequence returned by [tokenize_cell], and by [rank_genes] on the CSR row
    of the same vector, holds only tokens of the catalog's token table,
    holds none twice, is as long as the vector has strictly positive
    entries, and lists the tokens of exactly those entries by descending
    value. *)
Theorem tokenize_cell_tokens_ranked
    (argsort : list float -> list nat) (self : TranscriptomeTokenizer)
    (ids : list string) (loc : list nat) (nfv : list float) (toks : list Z)
    (v : list float) :
  ArgsortSpec argsort ->
  gene_columns self ids = Ok (loc, nfv, toks) ->
  length v = length toks ->
  NoDup toks ->
  Forall (fun x => (0 <=? x)%float = true) v ->
  exists r idx,
    tokenize_cell argsort v toks = Ok r
    /\ (tokens ← fancy toks (csr_indices v);
        rank_genes argsort (csr_data v) tokens) = Ok r
    /\ r = (fun i => nth i toks 0%Z) <$> idx
    /\ (forall t, t ∈ r -> exists g, gene_token_dict self !! g = Some t)
    /\ NoDup r
    /\ length r = length (List.filter is_positive v)
    /\ (forall i, i ∈ idx <->
          i < length v /\ (0 <? nth i v 0)%float = true)
    /\ StronglySorted
         (fun i j => (nth j v 0 <=? nth i v 0)%float = true) idx.
Proof.
  intros Hspec Hcols Hlen Hnd Hpos.
  exists ((fun i => nth i toks 0%Z) <$> ranked_idx argsort v),
         (ranked_idx argsort v).
  assert (Forall (fun i => i < length toks) (ranked_idx argsort v)) as Hlt.
  { apply list.Forall_forall. intros i Hi.
    apply (ranked_idx_elem _ Hspec) in Hi. lia. }
  assert (forall i, i < length v -> (0 <=? nth i v 0)%float = true) as Hge.
  { intros i Hi. destruct (lookup_lt_is_Some_2 v i Hi) as [x Hx].
    rewrite (nth_lookup_Some _ _ _ _ Hx).
    rewrite list.Forall_forall in Hpos.
    by eapply Hpos, list_elem_of_lookup_2. }
  assert (tokenize_cell argsort v toks
          = Ok ((fun i => nth i toks 0%Z) <$> ranked_idx argsort v)) as Htc
    by (apply (tokenize_cell_ranked _ Hspec); lia).
  split; [done|].
  split; [by rewrite csr_row_tokenize_cell|].
  split; [done|]. split; [|split; [|split; [|split]]].
  - intros t (i & -> & Hi)%list_elem_of_fmap.
    rewrite list.Forall_forall in Hlt. apply Hlt in Hi.
    destruct (lookup_lt_is_Some_2 toks i Hi) as [t Ht].
    rewrite (nth_lookup_Some _ _ _ _ Ht).
    apply gene_columns_spec in Hcols as (_ & _ & Htoks).
    destruct (Forall2_lookup_r _ _ _ _ _ Htoks Ht) as (j & _ & g & _ & Hg).
    by exists g.
  - apply NoDup_fmap_nth; [done| |done]. by apply ranked_idx_NoDup.
  - rewrite length_fmap, (length_ranked_idx _ Hspec).
    by rewrite filter_nonzero_positive.
  - intros i. rewrite (ranked_idx_elem _ Hspec).
    split; intros [Hi Hv]; (split; [done|]).
    + by rewrite (nonneg_nonzero_pos _ (Hge i Hi)) in Hv.
    + by apply positive_nonzero.
  - eapply StronglySorted_impl_elem; [|by apply ranked_idx_sorted].
    intros i j _ Hj. cbn. unfold np_ge.
    apply (ranked_idx_elem _ Hspec) in Hj as [Hj _].
    by rewrite (nonneg_not_nan _ (Hge j Hj)).
Qed.

Lemma tokenize_cell_tokens_ranked_witness :
  exists r idx,
    tokenize_cell argsort_stable [4%float; 5%float] [0%Z; 1%Z] = Ok r
    /\ (tokens ← fancy [0%Z; 1%Z] (csr_indices [4%float; 5%float]);
        rank_genes argsort_stable (csr_data [4%float; 5%float]) tokens) = Ok r
    /\ r = (fun i => nth i [0%Z; 1%Z] 0%Z) <$> idx
    /\ (forall t, t ∈ r ->
          exists g, gene_token_dict sample_tokenizer !! g = Some t)
    /\ NoDup r
    /\ length r = length (List.filter is_positive [4%float; 5%float])
    /\ (forall i, i ∈ idx <->
          i < length [4%float; 5%float]
          /\ (0 <? nth i [4%float; 5%float] 0)%float = true)
    /\ StronglySorted
         (fun i j => (nth j [4%float; 5%float] 0
                      <=? nth i [4%float; 5%float] 0)%float = true) idx.
Proof.
  apply (tokenize_cell_tokens_ranked argsort_stable sample_tokenizer
           ["GENE_A"%string; "GENE_X"%string; "GENE_B"%string]
           [0; 2] [1%float; 2%float] [0%Z; 1%Z] [4%float; 5%float]).
  - apply argsort_stable_spec.
  - vm_compute. reflexivity.
  - reflexivity.
  - apply (bool_decide_unpack _). vm_compute. exact I.
  - repeat constructor.
Defined.

(** ** Finite floats as rational numbers *)









(** ** Vectors that compare alike are ranked alike *)





Section Scaling.
Variable argsort : list float -> list nat.
Hypothesis Hspec : ArgsortSpec argsort.



End Scaling.




(** ** Dictionaries *)

Lemma dict_get_app_notin {V} (k : string) (d1 d2 : dict V) :
  k ∉ dict_keys d1 -> dict_get k (d1 ++ d2) = dict_get k d2.
Proof.
  induction d1 as [|[k' v'] d1 IH]; cbn; [done|].
  intros Hk. apply not_elem_of_cons in Hk as [Hne Hk].
  destruct (decide (k = k')); [done|]. by apply IH.
Qed.

Lemma dict_set_app_notin {V} (k : string) (v : V) (d1 d2 : dict V) :
  k ∉ dict_keys d1 -> dict_set k v (d1 ++ d2) = d1 ++ dict_set k v d2.
Proof.
  induction d1 as [|[k' v'] d1 IH]; cbn; [done|].
  intros Hk. apply not_elem_of_cons in Hk as [Hne Hk].
  destruct (decide (k = k')); [done|]. by rewrite IH.
Qed.

Lemma dict_get_set_eq {V} (k : string) (v : V) (d : dict V) :
  dict_get k (dict_set k v d) = Some v.
Proof.
  induction d as [|[k' v'] d IH]; cbn.
  - by rewrite decide_True.
  - destruct (decide (k = k')) as [->|Hne]; cbn.
    + by rewrite decide_True.
    + by rewrite decide_False.
Qed.

Lemma dict_get_set_ne {V} (k k' : string) (v : V) (d : dict V) :
  k <> k' -> dict_get k (dict_set k' v d) = dict_get k d.
Proof.
  intros Hne. induction d as [|[k'' v''] d IH]; cbn.
  - by rewrite decide_False.
  - destruct (decide (k' = k'')) as [->|Hne']; cbn.
    + by rewrite !decide_False.
    + destruct (decide (k = k'')); [done|]. apply IH.
Qed.

Lemma dict_keys_set {V} (k : string) (v : V) (d : dict V) :
  dict_keys (dict_set k v d)
  = if decide (k ∈ dict_keys d) then dict_keys d else dict_keys d ++ [k].
Proof.
  induction d as [|[k' v'] d IH]; cbn.
  - rewrite decide_False; [done|]. apply not_elem_of_nil.
  - destruct (decide (k = k')) as [->|Hne]; cbn.
    + rewrite decide_True; [done|]. left.
    + fold (dict_keys (dict_set k v d)). rewrite IH.
      fold (dict_keys d).
      destruct (decide (k ∈ dict_keys d)) as [Hin|Hin].
      * rewrite decide_True; [done|]. by right.
      * rewrite decide_False; [done|].
        intros [?|?]%elem_of_cons; done.
Qed.

Lemma dict_set_NoDup {V} (k : string) (v : V) (d : dict V) :
  NoDup (dict_keys d) -> NoDup (dict_keys (dict_set k v d)).
Proof.
  intros Hd. rewrite dict_keys_set. destruct (decide _) as [|Hk]; [done|].
  apply NoDup_app. split; [done|]. split; [|apply NoDup_singleton].
  intros k' Hk' ->%list_elem_of_singleton. done.
Qed.

Lemma dict_of_empty_lists_NoDup {V} (ks : list string) :
  NoDup (dict_keys (@dict_of_empty_lists V ks)).
Proof.
  unfold dict_of_empty_lists.
  assert (NoDup (dict_keys ([] : dict (list V)))) as H by constructor.
  revert H. generalize ([] : dict (list V)) as d.
  induction ks as [|k ks IH]; intros d Hd; cbn; [done|].
  apply IH. by apply dict_set_NoDup.
Qed.

(** ** Collecting the attributes *)

Lemma for_extend missing m sub (d1 d2 : dict (list pyval)) :
  NoDup (dict_keys (d1 ++ d2)) ->
  for_ (dict_keys d2)
    (fun k d =>
       old ← or_raise KeyError (dict_get k d);
       col ← attr_column missing m sub k;
       Ok (dict_set k (old ++ col) d))
    (d1 ++ d2)
  = (d2' ← extend_columns missing m sub d2; Ok (d1 ++ d2')).
Proof.
  revert d1. induction d2 as [|[k old] d2 IH]; intros d1 Hnd.
  - done.
  - assert (k ∉ dict_keys d1) as Hk.
    { unfold dict_keys in *. rewrite fmap_app in Hnd.
      apply NoDup_app in Hnd as (_ & Hnd & _).
      intros Hin. apply (Hnd k Hin). left. }
    cbn [dict_keys fmap list_fmap for_ fst].
    rewrite dict_get_app_notin by done. cbn [dict_get].
    rewrite decide_True by done. cbn.
    assert (attr_column missing m sub k
            = if has_attr m k then Ok ((fun c => get_attr c k) <$> sub)
              else Raise missing) as -> by done.
    unfold extend_columns. cbn [dict_keys fmap list_fmap forallb fst].
    destruct (has_attr m k); cbn [mbind res_bind andb]; [|done].
    rewrite dict_set_app_notin by done. cbn [dict_set].
    rewrite decide_True by done.
    specialize (IH (d1 ++ [(k, old ++ ((fun c => get_attr c k) <$> sub))])).
    rewrite <- !app_assoc in IH. cbn [app] in IH.
    unfold dict_keys in IH. rewrite IH.
    + unfold extend_columns, dict_keys.
      destruct (forallb (has_attr m) d2.*1); cbn; [|done].
      by rewrite <- app_assoc.
    + unfold dict_keys in Hnd. rewrite fmap_app in *. exact Hnd.
Qed.

Lemma add_metadata_dict self missing m sub d :
  is_Some (custom_attr_name_dict self) ->
  NoDup (dict_keys d) ->
  add_metadata self missing m sub (IsDict d)
  = IsDict <$> extend_columns missing m sub d.
Proof.
  intros [cd Hcd] Hnd. unfold add_metadata. rewrite Hcd.
  pose proof (for_extend missing m sub [] d Hnd) as H. cbn [app] in H.
  rewrite H. by destruct (extend_columns missing m sub d).
Qed.

Lemma add_metadata_none self missing m sub v :
  custom_attr_name_dict self = None ->
  add_metadata self missing m sub v = Ok IsNone.
Proof. intros H. unfold add_metadata. by rewrite H. Qed.

Lemma extend_columns_keys missing m sub d d' :
  extend_columns missing m sub d = Ok d' -> dict_keys d' = dict_keys d.
Proof.
  unfold extend_columns. destruct (forallb _ _); [|done]. intros [= <-].
  unfold dict_keys. rewrite <- list_fmap_compose.
  by apply list_fmap_ext.
Qed.

Lemma extend_columns_app missing m s1 s2 d :
  extend_columns missing m (s1 ++ s2) d
  = (d' ← extend_columns missing m s1 d; extend_columns missing m s2 d').
Proof.
  unfold extend_columns.
  destruct (forallb (has_attr m) (dict_keys d)) eqn:Hall; cbn; [|done].
  assert (dict_keys ((fun kv : string * list pyval =>
            (kv.1, kv.2 ++ ((fun c => get_attr c kv.1) <$> s1))) <$> d)
          = dict_keys d) as ->.
  { unfold dict_keys. rewrite <- list_fmap_compose. by apply list_fmap_ext. }
  rewrite Hall. f_equal. rewrite <- list_fmap_compose.
  apply list_fmap_ext. intros _ [k v] _. cbn.
  by rewrite fmap_app, app_assoc.
Qed.

(** ** One pass over several chunks is one pass over their concatenation *)

Section Visits.
Variable self : TranscriptomeTokenizer.
Variable missing : exn.
Variable m : Matrix.
Variable ct : Cell -> list Z.

Lemma visit_good s st st' :
  good_state self st -> visit self missing m ct s st = Ok st' ->
  good_state self st'.
Proof.
  unfold good_state, visit.
  destruct (custom_attr_name_dict self) as [cd|] eqn:Hcd; [|done].
  intros (d & -> & Hnd).
  rewrite add_metadata_dict by (by rewrite ?Hcd).
  destruct (extend_columns missing m s d) as [d'|] eqn:Hd'; cbn; [|done].
  intros [= <-]. exists d'. split; [done|].
  by rewrite (extend_columns_keys _ _ _ _ _ Hd').
Qed.

Lemma visit_app s1 s2 st :
  good_state self st ->
  visit self missing m ct (s1 ++ s2) st
  = (st' ← visit self missing m ct s1 st; visit self missing m ct s2 st').
Proof.
  unfold good_state, visit.
  destruct (custom_attr_name_dict self) as [cd|] eqn:Hcd.
  - intros (d & -> & Hnd).
    rewrite !add_metadata_dict by (by rewrite ?Hcd).
    rewrite extend_columns_app.
    destruct (extend_columns missing m s1 d) as [d'|] eqn:Hd'; cbn; [|done].
    rewrite add_metadata_dict; [|by rewrite Hcd|].
    + destruct (extend_columns missing m s2 d'); cbn; [|done].
      by rewrite fmap_app, app_assoc.
    + by rewrite (extend_columns_keys _ _ _ _ _ Hd').
  - intros _. rewrite !add_metadata_none by done. cbn.
    rewrite add_metadata_none by done. cbn.
    by rewrite fmap_app, app_assoc.
Qed.

Lemma for_visit chunks st :
  Forall (fun sub => sub <> []) chunks ->
  good_state self st ->
  for_ chunks (visit self missing m ct) st
  = match concat chunks with
    | [] => Ok st
    | sub => visit self missing m ct sub st
    end.
Proof.
  intros Hne. revert st. induction Hne as [|c chunks Hc Hne IH]; intros st Hst.
  - done.
  - cbn [for_ concat]. destruct c as [|x c]; [done|].
    cbn [app]. change (x :: c ++ concat chunks)
      with ((x :: c) ++ concat chunks).
    destruct (concat chunks) as [|y rest] eqn:Hcat.
    + rewrite app_nil_r.
      destruct (visit self missing m ct (x :: c) st) as [st'|] eqn:Hv;
        cbn; [|done].
      by rewrite IH by (by eapply visit_good).
    + rewrite visit_app by done.
      destruct (visit self missing m ct (x :: c) st) as [st'|] eqn:Hv;
        cbn; [|done].
      by rewrite IH by (by eapply visit_good).
Qed.
End Visits.

Lemma for_fmap {A B S} (f : A -> B) (body : B -> S -> res S) (l : list A) s :
  for_ (f <$> l) body s = for_ l (fun x => body (f x)) s.
Proof.
  revert s. induction l as [|x l IH]; intros s; [done|].
  cbn. destruct (body (f x) s); cbn; [apply IH|done].
Qed.

Lemma for_ext {A S} (body body' : A -> S -> res S) (l : list A) s :
  (forall x s, x ∈ l -> body x s = body' x s) ->
  for_ l body s = for_ l body' s.
Proof.
  revert s. induction l as [|x l IH]; intros s Hb; [done|].
  cbn. rewrite Hb by left. destruct (body' x s); cbn; [|done].
  apply IH. intros y s' Hy. apply Hb. by right.
Qed.

(** ** Selecting cells *)

Lemma fancy_pick {A} (a : list A) (idx : list nat) :
  Forall (fun i => i < length a) idx -> fancy a idx = Ok (pick a idx).
Proof.
  intros Hidx. unfold fancy, pick.
  assert (mapM (fun i => a !! i) idx = Some (omap (fun i => a !! i) idx))
    as ->; [|done].
  induction Hidx as [|i idx Hi _ IH]; [done|]. cbn.
  destruct (lookup_lt_is_Some_2 a i Hi) as [x Hx]. rewrite Hx. cbn.
  by rewrite IH.
Qed.

Lemma pick_app {A} (a : list A) idx1 idx2 :
  pick a (idx1 ++ idx2) = pick a idx1 ++ pick a idx2.
Proof. apply omap_app. Qed.

Lemma pick_concat {A} (a : list A) (chunks : list (list nat)) :
  pick a (concat chunks) = concat (pick a <$> chunks).
Proof.
  induction chunks as [|c chunks IH]; [done|].
  rewrite fmap_cons. cbn [concat]. by rewrite pick_app, IH.
Qed.

Lemma pick_nonempty {A} (a : list A) idx :
  Forall (fun i => i < length a) idx -> idx <> [] -> pick a idx <> [].
Proof.
  intros Hidx Hne. destruct Hidx as [|i idx Hi _]; [done|].
  unfold pick. cbn. destruct (lookup_lt_is_Some_2 a i Hi) as [x Hx].
  by rewrite Hx.
Qed.

Lemma pick_unique {A} (a : list A) idx r :
  Forall (fun i => i < length a) idx -> fancy a idx = Ok r -> pick a idx = r.
Proof. intros Hidx Hr. rewrite fancy_pick in Hr by done. congruence. Qed.

Lemma filter_pass_loc_lt m :
  Forall (fun i => i < length (cells m)) (filter_pass_loc m).2.
Proof.
  unfold filter_pass_loc. destruct (has_filter_pass m); cbn.
  - pose proof (np_where_lt
      ((fun c => bool_decide (filter_pass c = 1%Z)) <$> cells m)) as H.
    by rewrite length_fmap in H.
  - apply list.Forall_forall. intros i Hi%elem_of_seq. lia.
Qed.

Lemma filter_pass_loc_sorted m : StronglySorted lt (filter_pass_loc m).2.
Proof.
  unfold filter_pass_loc. destruct (has_filter_pass m); cbn.
  - apply where_from_sorted.
  - generalize 0. induction (length (cells m)) as [|n IH]; intros s; cbn;
      constructor; [apply IH|].
    apply list.Forall_forall. intros i Hi%elem_of_seq. lia.
Qed.

(** The cells at the positions [filter_pass_loc] are the included cells. *)
Lemma pick_filter_pass_loc m :
  pick (cells m) (filter_pass_loc m).2 = included m.
Proof.
  apply pick_unique; [apply filter_pass_loc_lt|].
  unfold filter_pass_loc, included. destruct (has_filter_pass m); cbn.
  - by rewrite fancy_np_where, filter_bool_decide.
  - apply fancy_seq.
Qed.

(** ** Chunks *)

Lemma range_fuel_lt fuel s stop step :
  Forall (fun i => i < stop) (range_fuel fuel s stop step).
Proof.
  revert s. induction fuel as [|fuel IH]; intros s; cbn; [done|].
  destruct (decide (s < stop)); [|done]. constructor; [done|apply IH].
Qed.

Lemma py_range_ok stop step :
  1 <= step -> py_range 0 stop step = Ok (range_fuel stop 0 stop step).
Proof. intros H. unfold py_range. destruct (decide (step = 0)); [lia|done]. Qed.

(** The slices [l[i:i+cs]] taken at [i = s, s+cs, ...] put end to end give
    [l[s:]]. *)
Lemma chunks_concat {A} (cs : nat) (l : list A) fuel s :
  1 <= cs -> length l <= fuel + s ->
  concat ((fun i => take cs (drop i l)) <$> range_fuel fuel s (length l) cs)
  = drop s l.
Proof.
  intros Hcs. revert s. induction fuel as [|fuel IH]; intros s Hfuel; cbn.
  - by rewrite drop_ge by lia.
  - destruct (decide (s < length l)) as [Hs|Hs]; cbn.
    + rewrite IH by lia.
      rewrite <- (take_drop cs (drop s l)) at 2.
      by rewrite drop_drop.
    + by rewrite drop_ge by lia.
Qed.

Lemma chunks_nonempty {A} (cs : nat) (l : list A) fuel s :
  1 <= cs ->
  Forall (fun c : list A => c <> [])
    ((fun i => take cs (drop i l)) <$> range_fuel fuel s (length l) cs).
Proof.
  intros Hcs. apply Forall_fmap. eapply Forall_impl; [apply range_fuel_lt|].
  cbn. intros i Hi Hnil. apply (f_equal length) in Hnil.
  rewrite length_take, length_drop in Hnil. cbn in Hnil. lia.
Qed.

Lemma concat_filter_nonempty {A} (L : list (list A)) :
  concat (filter (fun c => c <> []) L) = concat L.
Proof.
  induction L as [|c L IH]; [done|]. rewrite filter_cons.
  destruct (decide (c <> [])) as [Hc|Hc]; cbn; rewrite IH; [done|].
  destruct c; [done|]. by destruct Hc.
Qed.

Lemma filter_none {A} (P : A -> Prop) `{forall x, Decision (P x)} (l : list A) :
  Forall (fun x => ~ P x) l -> filter P l = [].
Proof.
  induction 1 as [|x l Hx _ IH]; [done|].
  by rewrite filter_cons, decide_False.
Qed.

Lemma filter_all {A} (P : A -> Prop) `{forall x, Decision (P x)} (l : list A) :
  Forall P l -> filter P l = l.
Proof.
  induction 1 as [|x l Hx _ IH]; [done|].
  by rewrite filter_cons, decide_True, IH.
Qed.

Lemma filter_agree {A} (P Q : A -> Prop) `{forall x, Decision (P x)}
    `{forall x, Decision (Q x)} (l : list A) :
  Forall (fun x => P x <-> Q x) l -> filter P l = filter Q l.
Proof.
  induction 1 as [|x l Hx _ IH]; [done|].
  rewrite !filter_cons, IH.
  destruct (decide (P x)), (decide (Q x)); tauto.
Qed.

Lemma filter_window_split (a b : nat) (items : list nat) :
  StronglySorted lt items -> a <= b ->
  filter (fun it => a <= it < b) items ++ filter (fun it => b <= it) items
  = filter (fun it => a <= it) items.
Proof.
  intros Hs Hab. induction Hs as [|x items Hs IH Hx]; [done|].
  rewrite !filter_cons.
  destruct (decide (a <= x < b)) as [H1|H1].
  - rewrite decide_False, decide_True by lia. cbn. by rewrite IH.
  - destruct (decide (b <= x)) as [H2|H2].
    + rewrite decide_True by lia.
      assert (filter (fun it => a <= it < b) items = []) as Hnil.
      { apply filter_none. eapply Forall_impl; [exact Hx|]. cbn. lia. }
      rewrite Hnil in IH |- *. cbn in *. by rewrite IH.
    + rewrite decide_False by lia. exact IH.
Qed.

(** The views of a scan, in order, cover the requested columns once each. *)
Lemma scan_concat (ncols : nat) (items : list nat) :
  StronglySorted lt items -> Forall (fun it => it < ncols) items ->
  concat (scan ncols items) = items.
Proof.
  intros Hs Hlt. unfold scan. rewrite concat_filter_nonempty.
  assert (forall fuel s, ncols <= fuel + s ->
    concat ((fun ix =>
               filter (fun it =>
                 ix <= it < ix + Nat.min (ncols - ix) loom_batch_size) items)
            <$> range_fuel fuel s ncols loom_batch_size)
    = filter (fun it => s <= it) items) as Hgen.
  { induction fuel as [|fuel IH]; intros s Hfuel; cbn.
    - symmetry. apply filter_none.
      eapply Forall_impl; [exact Hlt|]. cbn. lia.
    - destruct (decide (s < ncols)) as [Hsn|Hsn]; cbn.
      + rewrite IH by (unfold loom_batch_size; lia).
        rewrite <- (filter_window_split s (s + loom_batch_size) items)
          by (done || lia).
        f_equal. apply filter_agree.
        eapply Forall_impl; [exact Hlt|]. cbn. lia.
      + symmetry. apply filter_none.
        eapply Forall_impl; [exact Hlt|]. cbn. lia. }
  rewrite Hgen by lia. apply filter_all, list.Forall_forall.
  intros; lia.
Qed.

Lemma scan_nonempty ncols items :
  Forall (fun sel : list nat => sel <> []) (scan ncols items).
Proof.
  unfold scan. apply list.Forall_forall. intros sel Hsel.
  by apply list_elem_of_filter in Hsel as [? _].
Qed.

Lemma scan_lt ncols items n :
  Forall (fun it => it < n) items ->
  Forall (Forall (fun it => it < n)) (scan ncols items).
Proof.
  intros Hlt. unfold scan. apply list.Forall_forall. intros sel Hsel.
  apply list_elem_of_filter in Hsel as [_ Hsel].
  apply list_elem_of_fmap in Hsel as (ix & -> & _).
  apply list.Forall_forall. intros y [_ Hy]%list_elem_of_filter.
  rewrite list.Forall_forall in Hlt. by apply Hlt.
Qed.


(** ** The per-file tokenization in closed form *)

Lemma mapM_res_fmap {A B C} (f : B -> res C) (g : A -> B) (l : list A) :
  mapM f (g <$> l) = mapM (fun x => f (g x)) l.
Proof.
  induction l as [|x l IH]; [done|]. cbn. by rewrite IH.
Qed.

Lemma subview_norm_column_length ts loc nfv c :
  length nfv = length loc ->
  length (subview_norm_column ts loc nfv c) = length loc.
Proof.
  intros H. unfold subview_norm_column.
  rewrite length_zip_with, length_fmap. lia.
Qed.

Lemma sparse_values_length ts loc nfv c :
  length nfv = length loc -> length (sparse_values ts loc nfv c) = length loc.
Proof.
  intros H. unfold sparse_values. rewrite length_zip_with, length_fmap. lia.
Qed.

Lemma initial_good self : good_state self ([], initial_metadata self).
Proof.
  unfold good_state, initial_metadata.
  destruct (custom_attr_name_dict self) as [cd|]; [|done].
  eexists. split; [done|]. apply dict_of_empty_lists_NoDup.
Qed.

(** With the columns that [gene_columns] returns, tokenizing a cell never
    fails. *)
Lemma loom_cell_tokens argsort ts loc nfv toks c :
  ArgsortSpec argsort ->
  length nfv = length loc -> length toks = length loc ->
  loom_cell argsort ts loc nfv toks c
  = Ok (loom_tokens argsort ts loc nfv toks c).
Proof.
  intros Hspec Hnfv Htoks. unfold loom_cell, loom_tokens.
  apply (tokenize_cell_ranked _ Hspec).
  rewrite subview_norm_column_length; lia.
Qed.

Lemma anndata_cell_tokens argsort sparse ts loc nfv toks c :
  ArgsortSpec argsort ->
  length nfv = length loc -> length toks = length loc ->
  anndata_cell argsort sparse ts loc nfv toks c
  = Ok (anndata_tokens argsort sparse ts loc nfv toks c).
Proof.
  intros Hspec Hnfv Htoks. unfold anndata_cell, anndata_tokens, X_norm_row.
  cbv zeta. destruct sparse; cbn [fst snd].
  - apply (rank_genes_ranked _ Hspec).
    + fold (sparse_values ts loc nfv c).
      rewrite sparse_values_length, !length_fmap; lia.
    + eapply Forall_impl; [apply np_where_lt|]. cbn.
      rewrite !length_fmap. lia.
  - rewrite csr_row_tokenize_cell.
    by apply loom_cell_tokens.
Qed.

Section PerFile.
Variable self : TranscriptomeTokenizer.
Variable m : Matrix.
Variable tok : Cell -> res (list Z).
Variable ct : Cell -> list Z.
Hypothesis Htok : forall c, tok c = Ok (ct c).

Lemma tokenize_cells_visit missing sub :
  tokenize_cells self missing m tok sub
  = match sub with
    | [] => return_file ([], initial_metadata self)
    | _ =>
        st ← visit self missing m ct sub ([], initial_metadata self);
        return_file st
    end.
Proof using Htok.
  unfold tokenize_cells, visit. destruct sub as [|c sub]; [done|].
  rewrite (mapM_res_ok _ ct) by (intros; apply Htok).
  cbn [mbind res_bind fst snd app].
  by destruct (add_metadata _ _ _ _ _).
Qed.

(** Whatever the chunks, the loop ends in the state that one pass over
    all included cells gives. *)
Lemma loop_chunks missing (chunks : list (list nat)) :
  Forall (fun sel => sel <> []) chunks ->
  Forall (Forall (fun j => j < length (cells m))) chunks ->
  concat chunks = (filter_pass_loc m).2 ->
  (st ← for_ chunks
          (fun sel => visit self missing m ct (pick (cells m) sel))
          ([], initial_metadata self);
   return_file st)
  = tokenize_cells self missing m tok (included m).
Proof using Htok.
  intros Hne Hlt Hcat. rewrite tokenize_cells_visit.
  rewrite <- (for_fmap (pick (cells m)) (visit self missing m ct)).
  rewrite for_visit.
  - rewrite <- pick_concat, Hcat, pick_filter_pass_loc.
    by destruct (included m).
  - apply Forall_fmap. rewrite list.Forall_forall in *.
    intros sel Hsel. cbn. apply pick_nonempty; auto.
  - apply initial_good.
Qed.

Lemma tokenize_cells_rows missing sub rows md :
  tokenize_cells self missing m tok sub = Ok (rows, md) ->
  rows = ct <$> sub.
Proof using Htok.
  rewrite tokenize_cells_visit.
  unfold visit, return_file. destruct sub as [|c sub].
  - cbn. destruct (initial_metadata self); [done|by intros [= <- _]..].
  - destruct (add_metadata _ _ _ _ _) as [[| |d]|]; cbn; [done| | |done];
      by intros [= <- _].
Qed.

Lemma tokenize_cells_none missing sub :
  custom_attr_name_dict self = None ->
  tokenize_cells self missing m tok sub
  = match sub with
    | [] => Raise UnboundLocalError
    | _ => Ok (ct <$> sub, None)
    end.
Proof using Htok.
  intros Hnone. rewrite tokenize_cells_visit.
  unfold visit, return_file, initial_metadata. rewrite Hnone.
  destruct sub as [|c sub]; [done|].
  by rewrite add_metadata_none.
Qed.
End PerFile.

Lemma anndata_chunk_visit argsort self m ts cs loc nfv toks fpl i st :
  ArgsortSpec argsort ->
  length nfv = length loc -> length toks = length loc ->
  Forall (fun j => j < length (cells m)) fpl ->
  anndata_chunk argsort self m ts cs loc nfv toks fpl i st
  = visit self KeyError m
      (anndata_tokens argsort (X_sparse m) ts loc nfv toks)
      (pick (cells m) (take cs (drop i fpl))) st.
Proof.
  intros Hspec Hnfv Htoks Hlt. unfold anndata_chunk, visit. cbv zeta.
  rewrite fancy_pick by (by apply Forall_take, Forall_drop). cbn.
  rewrite mapM_res_fmap.
  rewrite (mapM_res_ok _ (anndata_tokens argsort (X_sparse m) ts loc nfv toks)).
  - done.
  - intros c _.
    by apply (anndata_cell_tokens argsort (X_sparse m) ts loc nfv toks c).
Qed.

Lemma loom_view_visit argsort self m ts loc nfv toks sel st :
  ArgsortSpec argsort ->
  length nfv = length loc -> length toks = length loc ->
  Forall (fun j => j < length (cells m)) sel ->
  loom_view argsort self m ts loc nfv toks sel st
  = visit self AttributeError m (loom_tokens argsort ts loc nfv toks)
      (pick (cells m) sel) st.
Proof.
  intros Hspec Hnfv Htoks Hlt. unfold loom_view, visit. cbv zeta.
  rewrite fancy_pick by done. cbn.
  rewrite mapM_res_fmap.
  rewrite (mapM_res_ok _ (loom_tokens argsort ts loc nfv toks)).
  - done.
  - intros c _. by apply (loom_cell_tokens argsort ts loc nfv toks c).
Qed.

Lemma tokenize_anndata_eq argsort self m ts cs loc nfv toks :
  ArgsortSpec argsort -> 1 <= cs ->
  gene_columns self (ensembl_id m) = Ok (loc, nfv, toks) ->
  tokenize_anndata argsort self m ts cs
  = ((filter_pass_loc m).1,
     tokenize_cells self KeyError m
       (anndata_cell argsort (X_sparse m) ts loc nfv toks) (included m)).
Proof.
  intros Hspec Hcs Hcols.
  destruct (gene_columns_length _ _ _ _ _ Hcols) as [Hnfv Htoks].
  unfold tokenize_anndata. rewrite Hcols.
  pose proof (filter_pass_loc_lt m) as Hlt.
  pose proof (loop_chunks self m
                (anndata_cell argsort (X_sparse m) ts loc nfv toks)
                (anndata_tokens argsort (X_sparse m) ts loc nfv toks)
                (fun c => anndata_cell_tokens argsort (X_sparse m) ts loc nfv
                            toks c Hspec Hnfv Htoks)
                KeyError) as Hloop.
  destruct (filter_pass_loc m) as [out fpl]. cbn [fst snd] in *.
  f_equal. rewrite py_range_ok by done. cbn [mbind res_bind].
  rewrite (for_ext _
    (fun i => visit self KeyError m
                (anndata_tokens argsort (X_sparse m) ts loc nfv toks)
                (pick (cells m) (take cs (drop i fpl)))))
    by (intros; by apply anndata_chunk_visit).
  rewrite <- (for_fmap (fun i => take cs (drop i fpl))
    (fun sel => visit self KeyError m
                  (anndata_tokens argsort (X_sparse m) ts loc nfv toks)
                  (pick (cells m) sel))).
  apply Hloop.
  - by apply chunks_nonempty.
  - apply Forall_fmap, list.Forall_forall. intros i _. cbn.
    by apply Forall_take, Forall_drop.
  - by rewrite chunks_concat by lia.
Qed.

Lemma tokenize_loom_eq argsort self m ts loc nfv toks :
  ArgsortSpec argsort ->
  gene_columns self (ensembl_id m) = Ok (loc, nfv, toks) ->
  tokenize_loom argsort self m ts
  = ((filter_pass_loc m).1,
     tokenize_cells self AttributeError m
       (loom_cell argsort ts loc nfv toks) (included m)).
Proof.
  intros Hspec Hcols.
  destruct (gene_columns_length _ _ _ _ _ Hcols) as [Hnfv Htoks].
  unfold tokenize_loom. rewrite Hcols.
  pose proof (filter_pass_loc_lt m) as Hlt.
  pose proof (filter_pass_loc_sorted m) as Hsorted.
  pose proof (loop_chunks self m
                (loom_cell argsort ts loc nfv toks)
                (loom_tokens argsort ts loc nfv toks)
                (fun c => loom_cell_tokens argsort ts loc nfv toks c
                            Hspec Hnfv Htoks)
                AttributeError) as Hloop.
  destruct (filter_pass_loc m) as [out fpl]. cbn [fst snd] in *.
  f_equal.
  rewrite (for_ext _
    (fun sel => visit self AttributeError m
                  (loom_tokens argsort ts loc nfv toks)
                  (pick (cells m) sel))).
  - apply Hloop.
    + apply scan_nonempty.
    + by apply scan_lt.
    + by apply scan_concat.
  - intros sel st Hsel. apply loom_view_visit; [done..|].
    pose proof (scan_lt (length (cells m)) fpl _ Hlt) as H.
    rewrite list.Forall_forall in H. by apply H.
Qed.

(** C5: the result of [tokenize_anndata], token sequences and metadata
    alike, is the same for every chunk size of at least one; in particular
    it is what a single chunk holding all included cells gives, namely the
    tokenization of the included cells in row order. *)
Theorem tokenize_anndata_chunking_independent
    (argsort : list float -> list nat) (self : TranscriptomeTokenizer)
    (m : Matrix) (ts : float) (cs : nat) :
  ArgsortSpec argsort ->
  1 <= cs ->
  tokenize_anndata argsort self m ts cs
    = tokenize_anndata argsort self m ts (Nat.max 1 (length (included m)))
  /\ (forall cs', 1 <= cs' ->
        tokenize_anndata argsort self m ts cs
        = tokenize_anndata argsort self m ts cs')
  /\ (forall loc nfv toks,
        gene_columns self (ensembl_id m) = Ok (loc, nfv, toks) ->
        tokenize_anndata argsort self m ts cs
        = ((filter_pass_loc m).1,
           tokenize_cells self KeyError m
             (anndata_cell argsort (X_sparse m) ts loc nfv toks)
             (included m))).
Proof.
  intros Hspec Hcs.
  assert (forall cs', 1 <= cs' ->
            tokenize_anndata argsort self m ts cs
            = tokenize_anndata argsort self m ts cs') as Hany.
  { intros cs' Hcs'.
    destruct (gene_columns self (ensembl_id m)) as [[[loc nfv] toks]|e] eqn:Hg.
    - by rewrite !(tokenize_anndata_eq _ _ _ _ _ loc nfv toks).
    - unfold tokenize_anndata. by rewrite Hg. }
  split; [apply Hany; lia|]. split; [done|].
  intros loc nfv toks Hg. by apply tokenize_anndata_eq.
Qed.

Lemma tokenize_anndata_chunking_independent_witness :
  let m := sample_matrix false
             [sample_cell 14 [4%float; 7%float; 10%float] 1;
              sample_cell 14 [10%float; 0%float; 4%float] 1;
              sample_cell 7 [0%float; 3%float; 0%float] 1] in
  tokenize_anndata argsort_stable sample_tokenizer m 14 2
    = tokenize_anndata argsort_stable sample_tokenizer m 14
        (Nat.max 1 (length (included m)))
  /\ (forall cs', 1 <= cs' ->
        tokenize_anndata argsort_stable sample_tokenizer m 14 2
        = tokenize_anndata argsort_stable sample_tokenizer m 14 cs')
  /\ (forall loc nfv toks,
        gene_columns sample_tokenizer (ensembl_id m) = Ok (loc, nfv, toks) ->
        tokenize_anndata argsort_stable sample_tokenizer m 14 2
        = ((filter_pass_loc m).1,
           tokenize_cells sample_tokenizer KeyError m
             (anndata_cell argsort_stable (X_sparse m) 14 loc nfv toks)
             (included m))).
Proof.
  apply (tokenize_anndata_chunking_independent argsort_stable
           sample_tokenizer).
  - apply argsort_stable_spec.
  - lia.
Defined.

Lemma included_nil_loc m : included m = [] -> (filter_pass_loc m).2 = [].
Proof.
  intros Hinc. rewrite <- pick_filter_pass_loc in Hinc.
  destruct (decide ((filter_pass_loc m).2 = [])) as [|Hne]; [done|].
  by destruct (pick_nonempty _ _ (filter_pass_loc_lt m) Hne).
Qed.

(** C9: when the matrix declares [filter_pass], both per-file functions
    tokenize exactly the cells whose flag is [1], in row order, and print
    nothing; when it does not, they tokenize every cell and print the
    fallback message once per matrix, and the missing flag raises nothing:
    with no custom attributes requested and at least one cell the outcome
    of either function is one token sequence per cell. *)
Theorem inclusion_filter
    (argsort : list float -> list nat) (self : TranscriptomeTokenizer)
    (m : Matrix) (ts : float) (cs : nat)
    (loc : list nat) (nfv : list float) (toks : list Z) :
  ArgsortSpec argsort ->
  1 <= cs ->
  gene_columns self (ensembl_id m) = Ok (loc, nfv, toks) ->
  let pass := filter (fun c => filter_pass c = 1%Z) (cells m) in
  let fallback :=
    (path m ++ " has no column attribute 'filter_pass'; tokenizing all cells.")%string in
  (has_filter_pass m = true ->
     tokenize_anndata argsort self m ts cs
       = ([], tokenize_cells self KeyError m
                (anndata_cell argsort (X_sparse m) ts loc nfv toks) pass)
     /\ tokenize_loom argsort self m ts
       = ([], tokenize_cells self AttributeError m
                (loom_cell argsort ts loc nfv toks) pass))
  /\ (has_filter_pass m = false ->
        tokenize_anndata argsort self m ts cs
          = ([fallback],
             tokenize_cells self KeyError m
               (anndata_cell argsort (X_sparse m) ts loc nfv toks) (cells m))
        /\ tokenize_loom argsort self m ts
          = ([fallback],
             tokenize_cells self AttributeError m
               (loom_cell argsort ts loc nfv toks) (cells m)))
  /\ (forall missing sub rows md,
        tokenize_cells self missing m
          (anndata_cell argsort (X_sparse m) ts loc nfv toks) sub
          = Ok (rows, md) ->
        mapM (fun c =>
                tokens ← fancy toks (X_norm_row (X_sparse m) ts loc nfv c).2;
                rank_genes argsort (X_norm_row (X_sparse m) ts loc nfv c).1
                  tokens) sub
          = Ok rows)
  /\ (forall missing sub rows md,
        tokenize_cells self missing m (loom_cell argsort ts loc nfv toks) sub
          = Ok (rows, md) ->
        mapM (fun c =>
                tokenize_cell argsort (subview_norm_column ts loc nfv c) toks)
             sub
          = Ok rows)
  /\ (has_filter_pass m = false ->
      custom_attr_name_dict self = None ->
      cells m <> [] ->
      exists rows_anndata rows_loom,
        length rows_anndata = length (cells m)
        /\ length rows_loom = length (cells m)
        /\ tokenize_anndata argsort self m ts cs
           = ([fallback], Ok (rows_anndata, None))
        /\ tokenize_loom argsort self m ts
           = ([fallback], Ok (rows_loom, None))).
Proof.
  intros Hspec Hcs Hcols pass fallback.
  destruct (gene_columns_length _ _ _ _ _ Hcols) as [Hnfv Htoks].
  pose proof (tokenize_anndata_eq argsort self m ts cs loc nfv toks
                Hspec Hcs Hcols) as Ha.
  pose proof (tokenize_loom_eq argsort self m ts loc nfv toks Hspec Hcols)
    as Hl.
  pose proof (fun c => anndata_cell_tokens argsort (X_sparse m) ts loc nfv
                         toks c Hspec Hnfv Htoks) as Hat.
  pose proof (fun c => loom_cell_tokens argsort ts loc nfv toks c
                         Hspec Hnfv Htoks) as Hlt.
  unfold included, filter_pass_loc in Ha, Hl.
  split; [|split; [|split; [|split]]].
  - intros Hflag. rewrite Hflag in Ha, Hl. by split.
  - intros Hflag. rewrite Hflag in Ha, Hl. by split.
  - intros missing sub rows md Hrows.
    apply (tokenize_cells_rows _ _ _ _ Hat) in Hrows as ->.
    apply mapM_res_ok. intros c _. apply Hat.
  - intros missing sub rows md Hrows.
    apply (tokenize_cells_rows _ _ _ _ Hlt) in Hrows as ->.
    apply mapM_res_ok. intros c _. apply Hlt.
  - intros Hflag Hnone Hne. rewrite Hflag in Ha, Hl.
    exists (anndata_tokens argsort (X_sparse m) ts loc nfv toks <$> cells m),
           (loom_tokens argsort ts loc nfv toks <$> cells m).
    rewrite Ha, Hl.
    rewrite (tokenize_cells_none _ _ _ _ Hat) by done.
    rewrite (tokenize_cells_none _ _ _ _ Hlt) by done.
    rewrite !length_fmap. cbn. by destruct (cells m).
Qed.

Lemma inclusion_filter_witness :
  let m := sample_matrix true
             [sample_cell 14 [4%float; 7%float; 10%float] 1;
              sample_cell 14 [10%float; 0%float; 4%float] 0] in
  let self := sample_tokenizer in
  let loc := [0; 2] in
  let nfv := [1%float; 2%float] in
  let toks := [0%Z; 1%Z] in
  let pass := filter (fun c => filter_pass c = 1%Z) (cells m) in
  let fallback :=
    (path m ++ " has no column attribute 'filter_pass'; tokenizing all cells.")%string in
  (has_filter_pass m = true ->
     tokenize_anndata argsort_stable self m 14 512
       = ([], tokenize_cells self KeyError m
                (anndata_cell argsort_stable (X_sparse m) 14 loc nfv toks)
                pass)
     /\ tokenize_loom argsort_stable self m 14
       = ([], tokenize_cells self AttributeError m
                (loom_cell argsort_stable 14 loc nfv toks) pass))
  /\ (has_filter_pass m = false ->
        tokenize_anndata argsort_stable self m 14 512
          = ([fallback],
             tokenize_cells self KeyError m
               (anndata_cell argsort_stable (X_sparse m) 14 loc nfv toks)
               (cells m))
        /\ tokenize_loom argsort_stable self m 14
          = ([fallback],
             tokenize_cells self AttributeError m
               (loom_cell argsort_stable 14 loc nfv toks) (cells m)))
  /\ (forall missing sub rows md,
        tokenize_cells self missing m
          (anndata_cell argsort_stable (X_sparse m) 14 loc nfv toks) sub
          = Ok (rows, md) ->
        mapM (fun c =>
                tokens ← fancy toks (X_norm_row (X_sparse m) 14 loc nfv c).2;
                rank_genes argsort_stable
                  (X_norm_row (X_sparse m) 14 loc nfv c).1 tokens) sub
          = Ok rows)
  /\ (forall missing sub rows md,
        tokenize_cells self missing m
          (loom_cell argsort_stable 14 loc nfv toks) sub
          = Ok (rows, md) ->
        mapM (fun c =>
                tokenize_cell argsort_stable
                  (subview_norm_column 14 loc nfv c) toks)
             sub
          = Ok rows)
  /\ (has_filter_pass m = false ->
      custom_attr_name_dict self = None ->
      cells m <> [] ->
      exists rows_anndata rows_loom,
        length rows_anndata = length (cells m)
        /\ length rows_loom = length (cells m)
        /\ tokenize_anndata argsort_stable self m 14 512
           = ([fallback], Ok (rows_anndata, None))
        /\ tokenize_loom argsort_stable self m 14
           = ([fallback], Ok (rows_loom, None))).
Proof.
  apply (inclusion_filter argsort_stable sample_tokenizer
           (sample_matrix true
              [sample_cell 14 [4%float; 7%float; 10%float] 1;
               sample_cell 14 [10%float; 0%float; 4%float] 0])
           14 512 [0; 2] [1%float; 2%float] [0%Z; 1%Z]).
  - apply argsort_stable_spec.
  - lia.
  - vm_compute. reflexivity.
Defined.

(** C10: with no custom attributes and no included cell, the loop body never
    runs, [file_cell_metadata] is never assigned, and both per-file
    functions raise an unbound-local error at their [return]. *)
Theorem unbound_metadata_on_empty_matrix
    (argsort : list float -> list nat) (self : TranscriptomeTokenizer)
    (m : Matrix) (ts : float) (cs : nat)
    (loc : list nat) (nfv : list float) (toks : list Z) :
  custom_attr_name_dict self = None ->
  included m = [] ->
  gene_columns self (ensembl_id m) = Ok (loc, nfv, toks) ->
  1 <= cs ->
  tokenize_anndata argsort self m ts cs
    = ((filter_pass_loc m).1, Raise UnboundLocalError)
  /\ tokenize_loom argsort self m ts
    = ((filter_pass_loc m).1, Raise UnboundLocalError).
Proof.
  intros Hnone Hinc%included_nil_loc Hcols Hcs.
  unfold tokenize_anndata, tokenize_loom. rewrite Hcols.
  destruct (filter_pass_loc m) as [out fpl]. cbn [fst snd] in *. subst fpl.
  rewrite py_range_ok by done.
  assert (scan (length (cells m)) [] = []) as ->.
  { unfold scan. apply filter_none, Forall_fmap, list.Forall_forall.
    intros ix _. cbn. intros H. by apply H. }
  cbn. unfold return_file, initial_metadata. rewrite Hnone. done.
Qed.

Lemma unbound_metadata_on_empty_matrix_witness :
  let m := sample_matrix true
             [sample_cell 14 [4%float; 7%float; 10%float] 0] in
  tokenize_anndata argsort_stable sample_tokenizer m 14 512
    = ((filter_pass_loc m).1, Raise UnboundLocalError)
  /\ tokenize_loom argsort_stable sample_tokenizer m 14
    = ((filter_pass_loc m).1, Raise UnboundLocalError).
Proof.
  apply (unbound_metadata_on_empty_matrix argsort_stable sample_tokenizer
           (sample_matrix true
              [sample_cell 14 [4%float; 7%float; 10%float] 0])
           14 512 [0; 2] [1%float; 2%float] [0%Z; 1%Z]).
  - reflexivity.
  - reflexivity.
  - vm_compute. reflexivity.
  - lia.
Defined.

(** ** Vectors without ties are sorted alike by every sort *)

Lemma no_ties_spec v i j :
  no_ties v = true -> i < length v -> j < length v -> i <> j ->
  np_lt (nth i v 0%float) (nth j v 0%float) = true
  \/ np_lt (nth j v 0%float) (nth i v 0%float) = true.
Proof.
  unfold no_ties. rewrite forallb_forall. intros H Hi Hj Hne.
  specialize (H i). rewrite forallb_forall in H.
  assert (In i (seq 0 (length v))) as Hi' by (apply in_seq; lia).
  assert (In j (seq 0 (length v))) as Hj' by (apply in_seq; lia).
  specialize (H Hi' j Hj').
  apply orb_true_iff in H as [H|H]; [|by right].
  apply orb_true_iff in H as [H|H]; [|by left].
  apply Nat.eqb_eq in H. done.
Qed.

Lemma argsort_no_ties argsort argsort' v :
  ArgsortSpec argsort -> ArgsortSpec argsort' -> no_ties v = true ->
  argsort v = argsort' v.
Proof.
  intros Hspec Hspec' Hnt.
  apply (StronglySorted_unique_strong
    (fun i j => np_lt (nth j v 0%float) (nth i v 0%float) = false)).
  - intros i j Hi Hj Hij Hji.
    rewrite (argsort_perm _ Hspec) in Hi.
    rewrite (argsort_perm _ Hspec') in Hj.
    apply elem_of_seq in Hi, Hj.
    destruct (decide (i = j)) as [|Hne]; [done|].
    destruct (no_ties_spec v i j Hnt) as [H|H]; [lia..|done|congruence|congruence].
  - apply (argsort_sorted _ Hspec).
  - apply (argsort_sorted _ Hspec').
  - by rewrite (argsort_perm _ Hspec), (argsort_perm _ Hspec').
Qed.

Lemma rank_genes_no_ties argsort argsort' v toks :
  ArgsortSpec argsort -> ArgsortSpec argsort' ->
  no_ties (np_neg v) = true ->
  rank_genes argsort v toks = rank_genes argsort' v toks.
Proof.
  intros Hspec Hspec' Hnt. unfold rank_genes. cbv zeta.
  by rewrite (argsort_no_ties argsort argsort').
Qed.

Lemma loom_cell_no_ties argsort argsort' ts loc nfv toks c :
  ArgsortSpec argsort -> ArgsortSpec argsort' ->
  no_ties (np_neg (csr_data (subview_norm_column ts loc nfv c))) = true ->
  loom_cell argsort ts loc nfv toks c = loom_cell argsort' ts loc nfv toks c.
Proof.
  intros Hspec Hspec' Hnt. unfold loom_cell, tokenize_cell. cbv zeta.
  rewrite fancy_np_nonzero. cbn.
  destruct (fancy toks _); cbn; [|done].
  by apply rank_genes_no_ties.
Qed.

Lemma anndata_cell_no_ties argsort argsort' sparse ts loc nfv toks c :
  ArgsortSpec argsort -> ArgsortSpec argsort' ->
  no_ties (np_neg (X_norm_row sparse ts loc nfv c).1) = true ->
  anndata_cell argsort sparse ts loc nfv toks c
  = anndata_cell argsort' sparse ts loc nfv toks c.
Proof.
  intros Hspec Hspec' Hnt. unfold anndata_cell. cbv zeta.
  destruct (fancy toks _); cbn; [|done].
  by apply rank_genes_no_ties.
Qed.

Lemma tokenize_cells_ext self missing m (tok tok' : Cell -> res (list Z)) sub :
  (forall c, c ∈ sub -> tok c = tok' c) ->
  tokenize_cells self missing m tok sub
  = tokenize_cells self missing m tok' sub.
Proof.
  intros Hext. unfold tokenize_cells. destruct sub as [|c sub]; [done|].
  by rewrite (mapM_res_ext tok tok').
Qed.

Lemma tokenize_loom_no_ties argsort argsort' self m ts loc nfv toks :
  ArgsortSpec argsort -> ArgsortSpec argsort' ->
  gene_columns self (ensembl_id m) = Ok (loc, nfv, toks) ->
  Forall (fun c =>
            no_ties (np_neg (csr_data (subview_norm_column ts loc nfv c)))
            = true) (included m) ->
  tokenize_loom argsort self m ts = tokenize_loom argsort' self m ts.
Proof.
  intros Hspec Hspec' Hcols Hnt.
  rewrite !(tokenize_loom_eq _ _ _ _ loc nfv toks) by done. f_equal.
  apply tokenize_cells_ext. intros c Hc. rewrite list.Forall_forall in Hnt.
  apply loom_cell_no_ties; auto.
Qed.

Lemma tokenize_anndata_no_ties argsort argsort' self m ts cs loc nfv toks :
  ArgsortSpec argsort -> ArgsortSpec argsort' -> 1 <= cs ->
  gene_columns self (ensembl_id m) = Ok (loc, nfv, toks) ->
  Forall (fun c =>
            no_ties (np_neg (X_norm_row (X_sparse m) ts loc nfv c).1) = true)
         (included m) ->
  tokenize_anndata argsort self m ts cs = tokenize_anndata argsort' self m ts cs.
Proof.
  intros Hspec Hspec' Hcs Hcols Hnt.
  rewrite !(tokenize_anndata_eq _ _ _ _ _ loc nfv toks) by done. f_equal.
  apply tokenize_cells_ext. intros c Hc. rewrite list.Forall_forall in Hnt.
  apply anndata_cell_no_ties; auto.
Qed.

(** ** Normalization *)

Lemma zip_with_fmap_l {A B C D} (f : B -> C -> D) (g : A -> B)
    (l : list A) (k : list C) :
  zip_with f (g <$> l) k = zip_with (fun x y => f (g x) y) l k.
Proof.
  revert k. induction l as [|x l IH]; intros [|y k]; cbn; try done.
  by rewrite IH.
Qed.


Lemma sparse_values_lookup ts loc nfv c k j f :
  loc !! k = Some j -> nfv !! k = Some f ->
  sparse_values ts loc nfv c !! k
  = Some (counts c j * (1 / n_counts c) * ts * (1 / f))%float.
Proof.
  intros Hj Hf. unfold sparse_values.
  by rewrite lookup_zip_with, list_lookup_fmap, Hj, Hf.
Qed.

(** The per-cell steps of the two loops, with the arithmetic written out
    over the kept columns. *)
Lemma loom_cell_formula argsort ts loc nfv toks c :
  loom_cell argsort ts loc nfv toks c
  = tokenize_cell argsort
      (zip_with (fun j f => (counts c j / n_counts c * ts / f)%float) loc nfv)
      toks.
Proof.
  unfold loom_cell, subview_norm_column. by rewrite zip_with_fmap_l.
Qed.

Lemma anndata_cell_dense_formula argsort ts loc nfv toks c :
  anndata_cell argsort false ts loc nfv toks c
  = tokenize_cell argsort
      (zip_with (fun j f => (counts c j / n_counts c * ts / f)%float) loc nfv)
      toks.
Proof.
  unfold anndata_cell, X_norm_row. cbv zeta. cbn [fst snd].
  by rewrite csr_row_tokenize_cell, zip_with_fmap_l.
Qed.

Lemma anndata_cell_sparse_formula argsort ts loc nfv toks c :
  anndata_cell argsort true ts loc nfv toks c
  = (let stored := (fun j => is_nonzero (counts c j)) <$> loc in
     tokens ← fancy toks (np_where stored);
     rank_genes argsort
       (compress stored
          (zip_with
             (fun j f => (counts c j * (1 / n_counts c) * ts * (1 / f))%float)
             loc nfv))
       tokens).
Proof.
  unfold anndata_cell, X_norm_row. cbv zeta. cbn [fst snd].
  by rewrite zip_with_fmap_l, <- list_fmap_compose.
Qed.




(** C4, amended: no guard on the total count exists.  Whatever the total
    counts are, zero and negative ones included, with no custom attributes
    requested and at least one included cell both per-file functions
    succeed with one token sequence per included cell; every value of a
    cell is divided by the total count of the cell as it stands (in
    [tokenize_anndata] on a sparse [X], multiplied by its reciprocal), the
    division by zero giving an infinity or NaN, and the cell is tokenized
    from the values so obtained. *)
Theorem total_count_not_checked
    (argsort : list float -> list nat) (self : TranscriptomeTokenizer)
    (m : Matrix) (ts : float) (cs : nat)
    (loc : list nat) (nfv : list float) (toks : list Z) :
  ArgsortSpec argsort ->
  1 <= cs ->
  gene_columns self (ensembl_id m) = Ok (loc, nfv, toks) ->
  custom_attr_name_dict self = None ->
  included m <> [] ->
  exists rows_anndata rows_loom,
    tokenize_anndata argsort self m ts cs
      = ((filter_pass_loc m).1, Ok (rows_anndata, None))
    /\ tokenize_loom argsort self m ts
      = ((filter_pass_loc m).1, Ok (rows_loom, None))
    /\ Forall2
         (fun c row =>
            tokenize_cell argsort
              (zip_with
                 (fun j f => (counts c j / n_counts c * ts / f)%float)
                 loc nfv)
              toks
            = Ok row)
         (included m) rows_loom
    /\ Forall2
         (fun c row =>
            (if X_sparse m then
               let stored := (fun j => is_nonzero (counts c j)) <$> loc in
               tokens ← fancy toks (np_where stored);
               rank_genes argsort
                 (compress stored
                    (zip_with
                       (fun j f =>
                          (counts c j * (1 / n_counts c) * ts * (1 / f))%float)
                       loc nfv))
                 tokens
             else
               tokenize_cell argsort
                 (zip_with
                    (fun j f => (counts c j / n_counts c * ts / f)%float)
                    loc nfv)
                 toks)
            = Ok row)
         (included m) rows_anndata.
Proof.
  intros Hspec Hcs Hcols Hnone Hne.
  destruct (gene_columns_length _ _ _ _ _ Hcols) as [Hnfv Htoks].
  pose proof (fun c => anndata_cell_tokens argsort (X_sparse m) ts loc nfv
                         toks c Hspec Hnfv Htoks) as Hat.
  pose proof (fun c => loom_cell_tokens argsort ts loc nfv toks c
                         Hspec Hnfv Htoks) as Hlt.
  exists (anndata_tokens argsort (X_sparse m) ts loc nfv toks <$> included m),
         (loom_tokens argsort ts loc nfv toks <$> included m).
  rewrite (tokenize_anndata_eq _ _ _ _ _ loc nfv toks) by done.
  rewrite (tokenize_loom_eq _ _ _ _ loc nfv toks) by done.
  rewrite (tokenize_cells_none _ _ _ _ Hat) by done.
  rewrite (tokenize_cells_none _ _ _ _ Hlt) by done.
  split; [by destruct (included m)|]. split; [by destruct (included m)|].
  split.
  - apply Forall2_fmap_r, Forall2_same_length_lookup. split; [done|].
    intros i c c' Hc Hc'. assert (c' = c) as -> by congruence.
    cbn. rewrite <- loom_cell_formula. apply Hlt.
  - apply Forall2_fmap_r, Forall2_same_length_lookup. split; [done|].
    intros i c c' Hc Hc'. assert (c' = c) as -> by congruence.
    cbn. rewrite <- Hat. destruct (X_sparse m).
    + by rewrite anndata_cell_sparse_formula.
    + by rewrite anndata_cell_dense_formula.
Qed.

Lemma total_count_not_checked_witness :
  let m := sample_matrix false
             [sample_cell (-14) [4%float; 7%float; 10%float] 1;
              sample_cell 0 [0%float; 7%float; 10%float] 1] in
  let loc := [0; 2] in
  let nfv := [1%float; 2%float] in
  let toks := [0%Z; 1%Z] in
  let ts := 14%float in
  exists rows_anndata rows_loom,
    tokenize_anndata argsort_stable sample_tokenizer m ts 512
      = ((filter_pass_loc m).1, Ok (rows_anndata, None))
    /\ tokenize_loom argsort_stable sample_tokenizer m ts
      = ((filter_pass_loc m).1, Ok (rows_loom, None))
    /\ Forall2
         (fun c row =>
            tokenize_cell argsort_stable
              (zip_with
                 (fun j f => (counts c j / n_counts c * ts / f)%float)
                 loc nfv)
              toks
            = Ok row)
         (included m) rows_loom
    /\ Forall2
         (fun c row =>
            (if X_sparse m then
               let stored := (fun j => is_nonzero (counts c j)) <$> loc in
               tokens ← fancy toks (np_where stored);
               rank_genes argsort_stable
                 (compress stored
                    (zip_with
                       (fun j f =>
                          (counts c j * (1 / n_counts c) * ts * (1 / f))%float)
                       loc nfv))
                 tokens
             else
               tokenize_cell argsort_stable
                 (zip_with
                    (fun j f => (counts c j / n_counts c * ts / f)%float)
                    loc nfv)
                 toks)
            = Ok row)
         (included m) rows_anndata.
Proof.
  apply (total_count_not_checked argsort_stable sample_tokenizer
           (sample_matrix false
              [sample_cell (-14) [4%float; 7%float; 10%float] 1;
               sample_cell 0 [0%float; 7%float; 10%float] 1])
           14 512 [0; 2] [1%float; 2%float] [0%Z; 1%Z]).
  - apply argsort_stable_spec.
  - lia.
  - vm_compute. reflexivity.
  - reflexivity.
  - discriminate.
Defined.

(** C4 as stated fails: a cell whose total count is negative or zero is
    neither rejected nor left out.  With total count -14 the counts 4 and
    10 become -4 and -5; with total count 0 the counts 0 and 10 become NaN
    and infinity.  Both cells are tokenized, by every sort: [tokenize_loom]
    gives the second cell a token for the gene it does not express, and
    [tokenize_anndata], on a sparse [X], does not. *)
Lemma nonpositive_total_count_counterexample :
  let negative := sample_cell (-14) [4%float; 7%float; 10%float] 1 in
  let zero := sample_cell 0 [0%float; 7%float; 10%float] 1 in
  let m := sample_matrix false [negative; zero] in
  (n_counts negative <? 0)%float = true
  /\ (n_counts zero =? 0)%float = true
  /\ subview_norm_column 14 [0; 2] [1%float; 2%float] negative
     = [(-4)%float; (-5)%float]
  /\ subview_norm_column 14 [0; 2] [1%float; 2%float] zero
     = [nan; infinity]
  /\ (forall argsort, ArgsortSpec argsort ->
        tokenize_loom argsort sample_tokenizer m 14
        = (["cells has no column attribute 'filter_pass'; tokenizing all cells."%string],
           Ok ([[0%Z; 1%Z]; [1%Z; 0%Z]], None))
        /\ tokenize_anndata argsort sample_tokenizer m 14 512
           = (["cells has no column attribute 'filter_pass'; tokenizing all cells."%string],
              Ok ([[0%Z; 1%Z]; [1%Z]], None))).
Proof.
  cbv zeta.
  split; [by vm_compute|]. split; [by vm_compute|].
  split; [by vm_compute|]. split; [by vm_compute|].
  intros argsort Hspec.
  pose proof argsort_stable_spec as Hst.
  set (m := sample_matrix false _).
  assert (gene_columns sample_tokenizer (ensembl_id m)
          = Ok ([0; 2], [1%float; 2%float], [0%Z; 1%Z])) as Hcols
    by (vm_compute; reflexivity).
  split.
  - rewrite (tokenize_loom_no_ties argsort argsort_stable _ _ _ _ _ _
               Hspec Hst Hcols).
    + by vm_compute.
    + repeat constructor; by vm_compute.
  - rewrite (tokenize_anndata_no_ties argsort argsort_stable _ _ _ 512 _ _ _
               Hspec Hst ltac:(lia) Hcols).
    + by vm_compute.
    + repeat constructor; by vm_compute.
Qed.


Lemma tokenize_files_cells_nil argsort self m file_format out cells md :
  tokenize_files argsort self m file_format = (out, Ok (cells, md)) ->
  cells = [].
Proof.
  unfold tokenize_files.
  destruct (if decide (file_format = "loom"%string) then _ else _)
    as [out' [[ftc fcm]|e]]; cbn; [|by intros [= _ ?]].
  destruct (custom_attr_name_dict self) as [d|]; cbn.
  - destruct (for_ _ _ _); cbn; [by intros [= _ <- _]|by intros [= _ ?]].
  - by intros [= _ <- _].
Qed.

(** C1 fails on the code: [tokenize_files] never adds the cells of the file
    to [tokenized_cells], so the list it returns is empty whenever it
    returns.  For a matrix of two cells, both tokenized by [tokenize_loom],
    it returns the empty list, and the dataset that [tokenize_data] hands
    to [save_to_disk] has no row. *)
Theorem tokenize_files_drops_cells :
  (forall argsort self m file_format out cells md,
     tokenize_files argsort self m file_format = (out, Ok (cells, md)) ->
     cells = [])
  /\ (forall argsort, ArgsortSpec argsort ->
        let m := sample_matrix false
                   [sample_cell 14 [4%float; 7%float; 10%float] 1;
                    sample_cell 14 [10%float; 0%float; 4%float] 1] in
        tokenize_loom argsort sample_tokenizer m default_target_sum
          = (["cells has no column attribute 'filter_pass'; tokenizing all cells."%string],
             Ok ([[1%Z; 0%Z]; [0%Z; 1%Z]], None))
        /\ tokenize_files argsort sample_tokenizer m "loom"
          = (["Tokenizing cells"%string;
              "cells has no column attribute 'filter_pass'; tokenizing all cells."%string],
             Ok ([], None))
        /\ tokenize_data argsort sample_tokenizer sample_path_join m
             "out" "tokens" "loom" false
          = (["Tokenizing cells"%string;
              "cells has no column attribute 'filter_pass'; tokenizing all cells."%string;
              "Creating dataset."%string;
              "Inside tokeniser function ::: Saving file to... out/tokens"%string],
             Ok ("out/tokens"%string, []))).
Proof.
  split; [apply tokenize_files_cells_nil|].
  intros argsort Hspec m.
  pose proof argsort_stable_spec as Hst.
  assert (gene_columns sample_tokenizer (ensembl_id m)
          = Ok ([0; 2], [1%float; 2%float], [0%Z; 1%Z])) as Hcols
    by (vm_compute; reflexivity).
  assert (tokenize_loom argsort sample_tokenizer m default_target_sum
          = tokenize_loom argsort_stable sample_tokenizer m default_target_sum)
    as Hl.
  { apply (tokenize_loom_no_ties argsort argsort_stable _ _ _ _ _ _
             Hspec Hst Hcols).
    repeat constructor; by vm_compute. }
  split; [rewrite Hl; by vm_compute|].
  assert (tokenize_files argsort sample_tokenizer m "loom"
          = (["Tokenizing cells"%string;
              "cells has no column attribute 'filter_pass'; tokenizing all cells."%string],
             Ok ([], None))) as Hf.
  { unfold tokenize_files. cbv zeta. rewrite decide_True by done.
    rewrite Hl. by vm_compute. }
  split; [done|].
  unfold tokenize_data. rewrite Hf. by vm_compute.
Qed.

(** ** Assembling the dataset *)

Lemma mapM_res_total {A B} (f : A -> res B) (l : list A) :
  (forall x, x ∈ l -> exists y, f x = Ok y) ->
  exists r, mapM f l = Ok r.
Proof.
  induction l as [|x l IH]; intros Hf; [by exists []|].
  destruct (Hf x) as [y Hy]; [left|].
  destruct IH as [r Hr]; [intros z Hz; apply Hf; by right|].
  exists (y :: r). cbn. by rewrite Hy, Hr.
Qed.

Lemma dict_update_head {V} (k : string) (v : V) (r md : dict V) :
  k ∉ dict_keys md ->
  dict_update ((k, v) :: r) md = (k, v) :: dict_update r md.
Proof.
  unfold dict_update. revert r.
  induction md as [|[k' v'] md IH]; intros r Hk; [done|].
  apply not_elem_of_cons in Hk as [Hne Hk]. cbn.
  rewrite decide_False by done. by apply IH.
Qed.

Lemma dict_set_Forall {V} (P : string * V -> Prop) k v (d : dict V) :
  P (k, v) -> Forall P d -> Forall P (dict_set k v d).
Proof.
  intros Hkv. induction 1 as [|[k' v'] d Hx Hd IH]; cbn.
  - by constructor.
  - destruct (decide (k = k')); constructor; auto.
Qed.

Lemma dict_update_Forall {V} (P : string * V -> Prop) (r md : dict V) :
  Forall P r -> Forall P md -> Forall P (dict_update r md).
Proof.
  unfold dict_update. intros Hr Hmd. revert r Hr.
  induction Hmd as [|[k v] md Hkv _ IH]; intros r Hr; [done|].
  cbn. apply IH. by apply dict_set_Forall.
Qed.

Lemma row_at_ok (k0 : string) (c0 : list pyval) (R : dict (list pyval)) i v0 :
  c0 !! i = Some v0 ->
  Forall (fun kc : string * list pyval => i < length kc.2) R ->
  exists rest, row_at ((k0, c0) :: R) i = Ok ((k0, v0) :: rest).
Proof.
  intros Hv0 HR. unfold row_at. cbn. rewrite Hv0. cbn.
  destruct (mapM_res_total
    (fun kc : string * list pyval =>
       v ← or_raise IndexError (kc.2 !! i); Ok (kc.1, v)) R) as [rest Hrest].
  - intros [k c] Hkc. rewrite list.Forall_forall in HR.
    apply HR in Hkc. cbn in *.
    destruct (lookup_lt_is_Some_2 c i Hkc) as [v Hv]. rewrite Hv. by eexists.
  - exists rest. by rewrite Hrest.
Qed.

Lemma format_cell_features_ok keep (example : dict pyval) (toks : list Z) :
  dict_get "input_ids" example = Some (PyTokens toks) ->
  exists row,
    format_cell_features keep example = Ok row
    /\ dict_get "input_ids" row = Some (PyTokens (take 2048 toks))
    /\ dict_get "length" row
       = Some (PyInt (Z.of_nat (Nat.min (length toks) 2048)))
    /\ (keep = true ->
        dict_get "input_ids_uncropped" row = Some (PyTokens toks)
        /\ dict_get "length_uncropped" row
           = Some (PyInt (Z.of_nat (length toks)))).
Proof.
  intros Hids. unfold format_cell_features, getitem.
  destruct keep; cbn [mbind res_bind].
  - rewrite Hids. cbn [or_raise mbind res_bind].
    rewrite dict_get_set_ne, Hids by done. cbn [or_raise mbind res_bind py_len].
    rewrite !dict_get_set_ne, Hids by done.
    cbn [or_raise mbind res_bind crop py_len].
    rewrite dict_get_set_eq. cbn [or_raise mbind res_bind py_len].
    eexists. split; [done|].
    rewrite dict_get_set_eq, dict_get_set_ne, dict_get_set_eq by done.
    rewrite length_take, Nat.min_comm.
    split; [done|]. split; [done|]. intros _.
    rewrite !(dict_get_set_ne "input_ids_uncropped") by done.
    rewrite !(dict_get_set_ne "length_uncropped") by done.
    by rewrite !dict_get_set_eq.
  - rewrite Hids. cbn [or_raise mbind res_bind crop py_len].
    rewrite dict_get_set_eq. cbn [or_raise mbind res_bind py_len].
    eexists. split; [done|].
    rewrite dict_get_set_eq, dict_get_set_ne, dict_get_set_eq by done.
    rewrite length_take, Nat.min_comm. by repeat split.
Qed.

(** C6: [create_dataset] keeps one row per token sequence, in order, empty
    sequences included; the row stores the first 2048 tokens of the ranked
    sequence and [length] is the length after cropping, the smaller of the
    original length and 2048.  (When custom attributes are requested their
    columns must be as long as the list of cells and none may be named
    [input_ids].  With [use_generator] there must be a cell: a generator
    that yields no row makes [Dataset.from_generator] fail.) *)
Theorem create_dataset_truncates
    (self : TranscriptomeTokenizer) (tokenized_cells : list (list Z))
    (cell_metadata : option (dict (list pyval)))
    (use_generator keep_uncropped_input_ids : bool) :
  (match custom_attr_name_dict self with
   | None => True
   | Some _ =>
       exists md,
         cell_metadata = Some md
         /\ ("input_ids"%string ∉ dict_keys md)
         /\ Forall (fun kc : string * list pyval =>
                      length kc.2 = length tokenized_cells) md
   end) ->
  (use_generator = false \/ tokenized_cells <> [] ->
   exists ds,
     create_dataset self tokenized_cells cell_metadata use_generator
       keep_uncropped_input_ids
     = (["Creating dataset."%string], Ok ds)
     /\ length ds = length tokenized_cells
     /\ forall i toks, tokenized_cells !! i = Some toks ->
          exists row,
            ds !! i = Some row
            /\ dict_get "input_ids" row = Some (PyTokens (take 2048 toks))
            /\ dict_get "length" row
               = Some (PyInt (Z.of_nat (Nat.min (length toks) 2048)))
            /\ (keep_uncropped_input_ids = true ->
                dict_get "input_ids_uncropped" row = Some (PyTokens toks)
                /\ dict_get "length_uncropped" row
                   = Some (PyInt (Z.of_nat (length toks)))))
  /\ (use_generator = true -> tokenized_cells = [] ->
      create_dataset self tokenized_cells cell_metadata use_generator
        keep_uncropped_input_ids
      = (["Creating dataset."%string], Raise DatasetGenerationError)).
Proof.
  intros Hmd. set (n := length tokenized_cells).
  set (col0 := PyTokens <$> tokenized_cells).
  assert (exists R,
    match custom_attr_name_dict self with
    | Some _ =>
        md ← or_raise TypeError cell_metadata;
        Ok (dict_update [("input_ids"%string, col0)] md)
    | None => Ok [("input_ids"%string, col0)]
    end = Ok (("input_ids"%string, col0) :: R)
    /\ Forall (fun kc : string * list pyval => length kc.2 = n) R)
    as (R & HD & HR).
  { destruct (custom_attr_name_dict self) as [cd|].
    - destruct Hmd as (md & -> & Hk & Hlen). cbn.
      rewrite dict_update_head by done. eexists. split; [done|].
      by apply dict_update_Forall.
    - by exists []. }
  set (D := ("input_ids"%string, col0) :: R) in *.
  assert (forall i toks, tokenized_cells !! i = Some toks ->
            exists rest,
              row_at D i = Ok (("input_ids"%string, PyTokens toks) :: rest))
    as Hrow.
  { intros i toks Hi. apply row_at_ok.
    - unfold col0. by rewrite list_lookup_fmap, Hi.
    - eapply Forall_impl; [exact HR|]. cbn. intros kc ->.
      by eapply lookup_lt_Some. }
  assert (exists ds0, mapM (row_at D) (seq 0 n) = Ok ds0) as [ds0 Hds0].
  { apply mapM_res_total. intros i [_ Hi]%elem_of_seq.
    destruct (lookup_lt_is_Some_2 tokenized_cells i Hi) as [toks Ht].
    destruct (Hrow i toks Ht) as [rest Hrest]. by eexists. }
  assert (forall i toks, tokenized_cells !! i = Some toks ->
            exists row0, ds0 !! i = Some row0
              /\ dict_get "input_ids" row0 = Some (PyTokens toks)) as Hds0i.
  { intros i toks Ht.
    destruct (mapM_res_lookup _ _ _ i i Hds0) as (row0 & Hr0 & Hrow0).
    { apply lookup_seq_lt. by eapply lookup_lt_Some. }
    destruct (Hrow i toks Ht) as [rest Hrest].
    exists row0. split; [done|]. rewrite Hrest in Hrow0.
    injection Hrow0 as <-. done. }
  assert (length ds0 = n) as Hlen0.
  { apply mapM_res_length in Hds0. by rewrite Hds0, length_seq. }
  assert (exists ds, mapM (format_cell_features keep_uncropped_input_ids) ds0
                     = Ok ds) as [ds Hds].
  { apply mapM_res_total. intros row0 Hin.
    apply list_elem_of_lookup in Hin as [i Hi].
    assert (i < n) as Hlt by (rewrite <- Hlen0; by eapply lookup_lt_Some).
    destruct (lookup_lt_is_Some_2 tokenized_cells i Hlt) as [toks Ht].
    destruct (Hds0i i toks Ht) as (row0' & Hr0 & Hget).
    assert (row0' = row0) as -> by congruence.
    destruct (format_cell_features_ok keep_uncropped_input_ids row0 toks Hget)
      as (row & Hrow' & _). by exists row. }
  split.
  - intros Huse. exists ds. split; [|split].
    + unfold create_dataset. cbv zeta. f_equal. fold col0.
      match goal with
      | |- ?x ≫= _ = _ => assert (x = Ok D) as -> by exact HD
      end.
      cbn [mbind res_bind].
      match goal with
      | |- ?x ≫= _ = _ => assert (x = Ok ds0) as ->; [|done]
      end.
      destruct use_generator.
      * fold n. rewrite Hds0. destruct Huse as [|Hne]; [done|].
        destruct ds0 as [|r0 ds0']; [|done].
        destruct tokenized_cells; [done|]. cbn in Hlen0. done.
      * unfold from_dict, D.
        assert (length col0 = n) as Hc0
          by (unfold col0; by rewrite length_fmap).
        rewrite Hc0.
        assert (forallb (fun kc : string * list pyval =>
                           Nat.eqb (length kc.2) n)
                        (("input_ids"%string, col0) :: R) = true) as ->;
          [|done].
        apply forallb_forall. intros kc [<-|Hin].
        -- cbn. rewrite Hc0. apply Nat.eqb_refl.
        -- rewrite List.Forall_forall in HR. rewrite (HR kc Hin).
           apply Nat.eqb_refl.
    + apply mapM_res_length in Hds. by rewrite Hds.
    + intros i toks Ht.
      destruct (Hds0i i toks Ht) as (row0 & Hr0 & Hget).
      destruct (mapM_res_lookup _ _ _ i row0 Hds Hr0) as (row & Hr & Hfmt).
      destruct (format_cell_features_ok keep_uncropped_input_ids row0 toks
                  Hget) as (row' & Hrow' & Hprops).
      assert (row' = row) as -> by congruence.
      exists row. by split.
  - intros -> Hnil. unfold create_dataset. cbv zeta. f_equal. fold col0.
    match goal with
    | |- ?x ≫= _ = _ => assert (x = Ok D) as -> by exact HD
    end.
    cbn [mbind res_bind]. by rewrite Hnil.
Qed.

Lemma create_dataset_truncates_witness :
  (true = false \/ [[1%Z; 0%Z]; []] <> [] ->
   exists ds,
     create_dataset sample_tokenizer [[1%Z; 0%Z]; []] None true true
     = (["Creating dataset."%string], Ok ds)
     /\ length ds = length [[1%Z; 0%Z]; []]
     /\ forall i toks, [[1%Z; 0%Z]; []] !! i = Some toks ->
          exists row,
            ds !! i = Some row
            /\ dict_get "input_ids" row = Some (PyTokens (take 2048 toks))
            /\ dict_get "length" row
               = Some (PyInt (Z.of_nat (Nat.min (length toks) 2048)))
            /\ (true = true ->
                dict_get "input_ids_uncropped" row = Some (PyTokens toks)
                /\ dict_get "length_uncropped" row
                   = Some (PyInt (Z.of_nat (length toks)))))
  /\ (true = true -> [[1%Z; 0%Z]; []] = [] ->
      create_dataset sample_tokenizer [[1%Z; 0%Z]; []] None true true
      = (["Creating dataset."%string], Raise DatasetGenerationError)).
Proof.
  apply (create_dataset_truncates sample_tokenizer [[1%Z; 0%Z]; []] None
           true true).
  exact I.
Defined.

(** * Further properties of the code *)

(** ** Failures while the gene columns are set up *)

Lemma or_raise_inv {A} (e0 e : exn) (o : option A) :
  or_raise e0 o = Raise e -> e = e0 /\ o = None.
Proof. destruct o; cbn; [done|]. by intros [= <-]. Qed.

Lemma gene_columns_raise self ids e :
  gene_columns self ids = Raise e ->
  e = KeyError
  /\ exists g, g ∈ ids /\ is_Some (gene_median_dict self !! g)
               /\ gene_token_dict self !! g = None.
Proof.
  intros Hraise.
  destruct (decide (Forall (fun g => is_Some (gene_median_dict self !! g) ->
                                     is_Some (gene_token_dict self !! g)) ids))
    as [Hall|Hnot].
  - rewrite list.Forall_forall in Hall.
    destruct (gene_columns_ok self ids Hall) as (? & ? & ? & Hok). congruence.
  - split.
    + revert Hraise. unfold gene_columns.
      destruct (fancy ids _) as [sel|e'] eqn:Hsel; cbn.
      * destruct (lookup_all (gene_median_dict self) sel) as [?|e1] eqn:H1;
          cbn.
        -- destruct (lookup_all (gene_token_dict self) sel) as [?|e2] eqn:H2;
             cbn; [done|].
           intros [= <-]. by apply or_raise_inv in H2 as [? _].
        -- intros [= <-]. by apply or_raise_inv in H1 as [? _].
      * pose proof (coding_miRNA_loc_lt self ids) as Hlt.
        rewrite fancy_pick in Hsel by done. done.
    + apply not_Forall_Exists in Hnot; [|apply _].
      apply Exists_exists in Hnot as (g & Hg & Hng). exists g. cbn in Hng.
      split; [done|].
      destruct (gene_median_dict self !! g) as [f|] eqn:Hf.
      * split; [done|]. destruct (gene_token_dict self !! g) eqn:Ht; [|done].
        destruct Hng. by intros _.
      * destruct Hng. by intros [? ?].
Qed.

(** X1: setting up the gene columns fails exactly when a gene of the matrix
    has a normalization factor but no token, and then with a [KeyError];
    both per-file functions raise it before any cell is read and before
    anything is printed.  Genes without a factor never cause a failure. *)
Theorem missing_token_KeyError
    (argsort : list float -> list nat) (self : TranscriptomeTokenizer)
    (m : Matrix) (ts : float) (cs : nat) :
  ((exists g, g ∈ ensembl_id m
              /\ is_Some (gene_median_dict self !! g)
              /\ gene_token_dict self !! g = None)
   <-> gene_columns self (ensembl_id m) = Raise KeyError)
  /\ (forall e, gene_columns self (ensembl_id m) = Raise e ->
        e = KeyError
        /\ tokenize_anndata argsort self m ts cs = ([], Raise KeyError)
        /\ tokenize_loom argsort self m ts = ([], Raise KeyError)).
Proof.
  split.
  - split.
    + intros (g & Hg & Hm & Ht).
      destruct (gene_columns self (ensembl_id m))
        as [[[loc nfv] toks]|e] eqn:Hcols.
      * apply gene_columns_spec in Hcols as (-> & _ & Htoks).
        apply list_elem_of_lookup in Hg as [j Hj].
        assert (j ∈ coding_miRNA_loc self (ensembl_id m)) as Hin
          by (apply elem_of_coding_miRNA_loc; eauto).
        apply list_elem_of_lookup in Hin as [k Hk].
        destruct (Forall2_lookup_l _ _ _ _ _ Htoks Hk)
          as (t & _ & g' & Hg' & Hgt). congruence.
      * by apply gene_columns_raise in Hcols as [-> _].
    + by intros (_ & H)%gene_columns_raise.
  - intros e Hraise. pose proof Hraise as [-> _]%gene_columns_raise.
    split; [done|]. unfold tokenize_anndata, tokenize_loom.
    by rewrite Hraise.
Qed.

(** ** Ranking without side conditions *)

Lemma fancy_raise {A} (a : list A) (idx : list nat) i :
  i ∈ idx -> length a <= i -> fancy a idx = Raise IndexError.
Proof.
  intros Hi Hlen. unfold fancy.
  assert (mapM (fun i => a !! i) idx = None) as ->; [|done].
  apply mapM_None, Exists_exists. exists i. split; [done|].
  by apply lookup_ge_None_2.
Qed.

Lemma nth_seq_take {A} (d : A) (a : list A) n :
  n <= length a -> (fun i => nth i a d) <$> seq 0 n = take n a.
Proof.
  intros Hn. apply list_eq. intros i. rewrite list_lookup_fmap.
  destruct (decide (i < n)) as [Hi|Hi].
  - rewrite lookup_seq_lt, lookup_take_lt by done. cbn.
    destruct (lookup_lt_is_Some_2 a i) as [x Hx]; [lia|].
    rewrite Hx. f_equal. by apply nth_lookup_Some.
  - rewrite lookup_seq_ge, lookup_take_ge by lia. done.
Qed.

(** X2: [rank_genes] neither drops nor invents tokens: when there are at
    least as many tokens as values it returns a rearrangement of the first
    [len(gene_vector)] tokens, and when there are fewer it raises an
    [IndexError]. *)
Theorem rank_genes_permutes
    (argsort : list float -> list nat) (gene_vector : list float)
    (gene_tokens : list Z) :
  ArgsortSpec argsort ->
  (length gene_vector <= length gene_tokens ->
   exists r, rank_genes argsort gene_vector gene_tokens = Ok r
             /\ r ≡ₚ take (length gene_vector) gene_tokens)
  /\ (length gene_tokens < length gene_vector ->
      rank_genes argsort gene_vector gene_tokens = Raise IndexError).
Proof.
  intros Hspec. unfold rank_genes. cbv zeta.
  pose proof (argsort_perm _ Hspec (np_neg gene_vector)) as Hperm.
  unfold np_neg in Hperm at 2. rewrite length_fmap in Hperm.
  split.
  - intros Hlen. eexists. split.
    + apply (fancy_ok 0%Z). apply list.Forall_forall. intros i Hi.
      rewrite Hperm in Hi. apply elem_of_seq in Hi. lia.
    + rewrite Hperm. by rewrite nth_seq_take.
  - intros Hlen. apply (fancy_raise _ _ (length gene_tokens)); [|done].
    rewrite Hperm. apply elem_of_seq. lia.
Qed.

Lemma rank_genes_permutes_witness :
  (length [4%float; 9%float] <= length [10%Z; 11%Z; 12%Z] ->
   exists r, rank_genes argsort_stable [4%float; 9%float] [10%Z; 11%Z; 12%Z] = Ok r
             /\ r ≡ₚ take (length [4%float; 9%float]) [10%Z; 11%Z; 12%Z])
  /\ (length [10%Z; 11%Z; 12%Z] < length [4%float; 9%float] ->
      rank_genes argsort_stable [4%float; 9%float] [10%Z; 11%Z; 12%Z]
      = Raise IndexError).
Proof.
  apply (rank_genes_permutes argsort_stable [4%float; 9%float] [10%Z; 11%Z; 12%Z]).
  apply argsort_stable_spec.
Defined.

Lemma StronglySorted_lookup_lt {A} (R : A -> A -> Prop) (l : list A) p q x y :
  StronglySorted R l -> p < q -> l !! p = Some x -> l !! q = Some y -> R x y.
Proof.
  intros Hl. revert p q. induction Hl as [|a l Hl IH Ha]; intros p q Hpq;
    [done|].
  destruct q as [|q]; [lia|]. destruct p as [|p]; cbn.
  - intros [= ->] Hy. rewrite list.Forall_forall in Ha.
    by eapply Ha, list_elem_of_lookup_2.
  - apply IH. lia.
Qed.

(** X3: [tokenize_cell] keeps every non-zero entry, negative ones, NaN and
    infinities included.  Provided each non-zero entry has a token at its
    position, the sequence lists the tokens of exactly the non-zero
    positions, each position once, by descending value with NaN last, so
    that the token of a negative entry comes after the token of every
    positive entry; entries that are zero need no token. *)
Theorem tokenize_cell_keeps_nonzero
    (argsort : list float -> list nat) (v : list float) (toks : list Z) :
  ArgsortSpec argsort ->
  (forall i, i < length v -> is_nonzero (nth i v 0%float) = true ->
             i < length toks) ->
  exists idx,
    tokenize_cell argsort v toks = Ok ((fun i => nth i toks 0%Z) <$> idx)
    /\ idx ≡ₚ np_nonzero v
    /\ NoDup idx
    /\ (forall i, i ∈ idx <->
          i < length v /\ is_nonzero (nth i v 0%float) = true)
    /\ length idx = length (List.filter is_nonzero v)
    /\ StronglySorted
         (fun i j => np_ge (nth i v 0%float) (nth j v 0%float) = true) idx
    /\ (forall p q i j,
          idx !! p = Some i -> idx !! q = Some j ->
          (nth i v 0 <? 0)%float = true -> (0 <? nth j v 0)%float = true ->
          q < p).
Proof.
  intros Hspec Hcov. exists (ranked_idx argsort v).
  split; [by apply tokenize_cell_ranked_covered|].
  split; [by apply ranked_idx_perm|].
  split; [by apply ranked_idx_NoDup|].
  split; [intros i; by apply ranked_idx_elem|].
  split; [by apply length_ranked_idx|].
  split; [by apply ranked_idx_sorted|].
  intros p q i j Hp Hq Hi Hj.
  destruct (decide (q < p)) as [|Hqp]; [done|].
  destruct (decide (p = q)) as [->|Hne].
  - assert (i = j) as -> by congruence.
    pose proof (np_ge_neg_pos _ _ Hi Hj) as Hge. unfold np_ge in Hge.
    rewrite ltb_key in Hi, Hj.
    apply andb_true_iff in Hi as [Hi _]. apply andb_true_iff in Hj as [Hj _].
    by rewrite (key_lt_asym _ _ Hi) in Hj.
  - pose proof (StronglySorted_lookup_lt _ _ p q i j
                  (ranked_idx_sorted argsort Hspec v)) as Hle.
    cbn in Hle. specialize (Hle ltac:(lia) Hp Hq).
    by rewrite (np_ge_neg_pos _ _ Hi Hj) in Hle.
Qed.

Lemma tokenize_cell_keeps_nonzero_witness :
  let v := [(-3)%float; 0%float; 5%float; nan] in
  let toks := [10%Z; 11%Z; 12%Z; 13%Z] in
  exists idx,
    tokenize_cell argsort_stable v toks = Ok ((fun i => nth i toks 0%Z) <$> idx)
    /\ idx ≡ₚ np_nonzero v
    /\ NoDup idx
    /\ (forall i, i ∈ idx <->
          i < length v /\ is_nonzero (nth i v 0%float) = true)
    /\ length idx = length (List.filter is_nonzero v)
    /\ StronglySorted
         (fun i j => np_ge (nth i v 0%float) (nth j v 0%float) = true) idx
    /\ (forall p q i j,
          idx !! p = Some i -> idx !! q = Some j ->
          (nth i v 0 <? 0)%float = true -> (0 <? nth j v 0)%float = true ->
          q < p).
Proof.
  apply (tokenize_cell_keeps_nonzero argsort_stable
           [(-3)%float; 0%float; 5%float; nan] [10%Z; 11%Z; 12%Z; 13%Z]).
  - apply argsort_stable_spec.
  - cbn. lia.
Defined.

(** X4: a non-zero entry at a position for which [gene_tokens] has no
    token makes [tokenize_cell] raise an [IndexError], whatever the other
    entries are. *)
Theorem tokenize_cell_IndexError
    (argsort : list float -> list nat) (v : list float) (toks : list Z)
    (i : nat) :
  i < length v ->
  is_nonzero (nth i v 0%float) = true ->
  length toks <= i ->
  tokenize_cell argsort v toks = Raise IndexError.
Proof.
  intros Hi Hnz Hlen. unfold tokenize_cell. cbv zeta.
  rewrite fancy_np_nonzero. cbn.
  rewrite (fancy_raise toks (np_nonzero v) i); [done| |done].
  by apply elem_of_np_nonzero.
Qed.

Lemma tokenize_cell_IndexError_witness :
  tokenize_cell argsort_stable [0%float; 4%float; 5%float] [10%Z; 11%Z]
  = Raise IndexError.
Proof.
  apply (tokenize_cell_IndexError argsort_stable [0%float; 4%float; 5%float]
           [10%Z; 11%Z] 2).
  - cbn. lia.
  - reflexivity.
  - cbn. lia.
Defined.

(** ** Custom attributes *)

Lemma dict_set_notin {V} (k : string) (v : V) (d : dict V) :
  k ∉ dict_keys d -> dict_set k v d = d ++ [(k, v)].
Proof.
  intros Hk. rewrite <- (app_nil_r d) at 1.
  by rewrite dict_set_app_notin.
Qed.

Lemma dict_of_empty_lists_eq {V} (ks : list string) :
  NoDup ks -> @dict_of_empty_lists V ks = (fun k => (k, [])) <$> ks.
Proof.
  unfold dict_of_empty_lists.
  assert (forall acc : dict (list V),
            NoDup (dict_keys acc ++ ks) ->
            foldl (fun acc k => dict_set k [] acc) acc ks
            = acc ++ ((fun k => (k, [])) <$> ks)) as Hgen.
  { induction ks as [|k ks IH]; intros acc Hnd; cbn.
    - by rewrite app_nil_r.
    - assert (k ∉ dict_keys acc) as Hk.
      { apply NoDup_app in Hnd as (_ & Hnd & _). intros Hin.
        apply (Hnd k Hin). left. }
      rewrite dict_set_notin by done. rewrite IH.
      + by rewrite <- app_assoc.
      + unfold dict_keys in *. rewrite fmap_app, <- app_assoc. exact Hnd. }
  intros Hnd. by rewrite Hgen.
Qed.

Lemma tokenize_cells_some self m tok ct missing sub d :
  (forall c, tok c = Ok (ct c)) ->
  custom_attr_name_dict self = Some d ->
  tokenize_cells self missing m tok sub
  = match sub with
    | [] => Ok ([], Some (dict_of_empty_lists (dict_keys d)))
    | _ =>
        d' ← extend_columns missing m sub (dict_of_empty_lists (dict_keys d));
        Ok (ct <$> sub, Some d')
    end.
Proof.
  intros Htok Hd. rewrite (tokenize_cells_visit _ _ _ _ Htok).
  unfold visit, return_file, initial_metadata. rewrite Hd.
  destruct sub as [|c sub]; [done|]. cbn [snd fst].
  rewrite add_metadata_dict;
    [|by rewrite Hd|apply dict_of_empty_lists_NoDup].
  by destruct (extend_columns _ _ _ _).
Qed.

Lemma extend_columns_empty_lists missing m sub (ks : list string) :
  extend_columns missing m sub ((fun k => (k, [])) <$> ks)
  = if forallb (has_attr m) ks
    then Ok ((fun k => (k, (fun c => get_attr c k) <$> sub)) <$> ks)
    else Raise missing.
Proof.
  unfold extend_columns, dict_keys. rewrite <- !list_fmap_compose.
  assert ((fst ∘ (fun k : string => (k, @nil pyval))) <$> ks = ks) as ->.
  { rewrite <- (list_fmap_id ks) at 2. by apply list_fmap_ext. }
  by destruct (forallb (has_attr m) ks).
Qed.

(** The outcome of a per-file tokenization when every requested attribute
    exists. *)
Lemma tokenize_cells_custom self m tok ct missing d :
  (forall c, tok c = Ok (ct c)) ->
  custom_attr_name_dict self = Some d ->
  NoDup (dict_keys d) ->
  (forall k, k ∈ dict_keys d -> has_attr m k = true) ->
  tokenize_cells self missing m tok (included m)
  = Ok (ct <$> included m,
        Some ((fun k => (k, (fun c => get_attr c k) <$> included m))
              <$> dict_keys d)).
Proof.
  intros Htok Hd Hnd Hattr.
  assert (forallb (has_attr m) (dict_keys d) = true) as Hall.
  { apply forallb_forall. intros k Hk%list_elem_of_In. by apply Hattr. }
  rewrite (tokenize_cells_some _ _ _ ct _ _ d) by done.
  rewrite dict_of_empty_lists_eq by done.
  destruct (included m) as [|c sub]; [done|].
  by rewrite extend_columns_empty_lists, Hall.
Qed.

(** X5: when custom attributes are requested and the matrix has them all,
    both per-file functions return, next to the token sequences of the
    included cells, one column per requested attribute, in the order of the
    request, that holds the attribute of the included cells in row order;
    every column is as long as the list of token sequences. *)
Theorem metadata_aligned
    (argsort : list float -> list nat) (self : TranscriptomeTokenizer)
    (m : Matrix) (ts : float) (cs : nat)
    (loc : list nat) (nfv : list float) (toks : list Z) (d : dict string) :
  ArgsortSpec argsort ->
  1 <= cs ->
  gene_columns self (ensembl_id m) = Ok (loc, nfv, toks) ->
  custom_attr_name_dict self = Some d ->
  NoDup (dict_keys d) ->
  (forall k, k ∈ dict_keys d -> has_attr m k = true) ->
  let md := (fun k => (k, (fun c => get_attr c k) <$> included m))
              <$> dict_keys d in
  exists rows_anndata rows_loom,
    mapM (fun c =>
            tokens ← fancy toks (X_norm_row (X_sparse m) ts loc nfv c).2;
            rank_genes argsort (X_norm_row (X_sparse m) ts loc nfv c).1 tokens)
         (included m) = Ok rows_anndata
    /\ mapM (fun c =>
               tokenize_cell argsort (subview_norm_column ts loc nfv c) toks)
            (included m) = Ok rows_loom
    /\ tokenize_anndata argsort self m ts cs
       = ((filter_pass_loc m).1, Ok (rows_anndata, Some md))
    /\ tokenize_loom argsort self m ts
       = ((filter_pass_loc m).1, Ok (rows_loom, Some md))
    /\ Forall (fun kc : string * list pyval =>
                 length kc.2 = length rows_anndata
                 /\ length kc.2 = length rows_loom) md.
Proof.
  intros Hspec Hcs Hcols Hd Hnd Hattr md.
  destruct (gene_columns_length _ _ _ _ _ Hcols) as [Hnfv Htoks].
  pose proof (fun c => anndata_cell_tokens argsort (X_sparse m) ts loc nfv
                         toks c Hspec Hnfv Htoks) as Hat.
  pose proof (fun c => loom_cell_tokens argsort ts loc nfv toks c
                         Hspec Hnfv Htoks) as Hlt.
  exists (anndata_tokens argsort (X_sparse m) ts loc nfv toks <$> included m),
         (loom_tokens argsort ts loc nfv toks <$> included m).
  split; [|split; [|split; [|split]]].
  - apply mapM_res_ok. intros c _. apply Hat.
  - apply mapM_res_ok. intros c _. apply Hlt.
  - rewrite (tokenize_anndata_eq _ _ _ _ _ loc nfv toks) by done.
    by rewrite (tokenize_cells_custom _ _ _ _ _ d Hat).
  - rewrite (tokenize_loom_eq _ _ _ _ loc nfv toks) by done.
    by rewrite (tokenize_cells_custom _ _ _ _ _ d Hlt).
  - apply Forall_fmap, list.Forall_forall. intros k _. cbn.
    by rewrite !length_fmap.
Qed.

Lemma metadata_aligned_witness :
  let m := sample_matrix true
             [sample_cell 14 [4%float; 7%float; 10%float] 1;
              sample_cell 14 [10%float; 0%float; 4%float] 0;
              sample_cell 7 [0%float; 3%float; 7%float] 1] in
  let loc := [0; 2] in
  let nfv := [1%float; 2%float] in
  let toks := [0%Z; 1%Z] in
  let md := (fun k => (k, (fun c => get_attr c k) <$> included m))
              <$> dict_keys [("cell_type"%string, "ct"%string);
                             ("n_counts"%string, "n"%string)] in
  exists rows_anndata rows_loom,
    mapM (fun c =>
            tokens ← fancy toks (X_norm_row (X_sparse m) 14 loc nfv c).2;
            rank_genes argsort_stable (X_norm_row (X_sparse m) 14 loc nfv c).1
              tokens)
         (included m) = Ok rows_anndata
    /\ mapM (fun c =>
               tokenize_cell argsort_stable (subview_norm_column 14 loc nfv c)
                 toks)
            (included m) = Ok rows_loom
    /\ tokenize_anndata argsort_stable sample_tokenizer_attrs m 14 1
       = ((filter_pass_loc m).1, Ok (rows_anndata, Some md))
    /\ tokenize_loom argsort_stable sample_tokenizer_attrs m 14
       = ((filter_pass_loc m).1, Ok (rows_loom, Some md))
    /\ Forall (fun kc : string * list pyval =>
                 length kc.2 = length rows_anndata
                 /\ length kc.2 = length rows_loom) md.
Proof.
  apply (metadata_aligned argsort_stable sample_tokenizer_attrs
           (sample_matrix true
              [sample_cell 14 [4%float; 7%float; 10%float] 1;
               sample_cell 14 [10%float; 0%float; 4%float] 0;
               sample_cell 7 [0%float; 3%float; 7%float] 1])
           14 1 [0; 2] [1%float; 2%float] [0%Z; 1%Z]
           [("cell_type"%string, "ct"%string);
            ("n_counts"%string, "n"%string)]).
  - apply argsort_stable_spec.
  - lia.
  - vm_compute. reflexivity.
  - reflexivity.
  - apply (bool_decide_unpack _). vm_compute. exact I.
  - intros k Hk. apply (bool_decide_unpack _).
    revert k Hk. apply list.Forall_forall.
    repeat constructor.
Defined.

(** X6: when a requested attribute is absent from the matrix, the per-file
    functions fail as soon as one cell is included, [tokenize_anndata] with
    a [KeyError] and [tokenize_loom] with an [AttributeError]; when no cell
    is included the absence goes unnoticed and both return no token
    sequence and an empty column per requested attribute. *)
Theorem missing_attribute
    (argsort : list float -> list nat) (self : TranscriptomeTokenizer)
    (m : Matrix) (ts : float) (cs : nat)
    (loc : list nat) (nfv : list float) (toks : list Z)
    (d : dict string) (k : string) :
  ArgsortSpec argsort ->
  1 <= cs ->
  gene_columns self (ensembl_id m) = Ok (loc, nfv, toks) ->
  custom_attr_name_dict self = Some d ->
  NoDup (dict_keys d) ->
  k ∈ dict_keys d ->
  has_attr m k = false ->
  (included m <> [] ->
   tokenize_anndata argsort self m ts cs
     = ((filter_pass_loc m).1, Raise KeyError)
   /\ tokenize_loom argsort self m ts
     = ((filter_pass_loc m).1, Raise AttributeError))
  /\ (included m = [] ->
      tokenize_anndata argsort self m ts cs
        = ((filter_pass_loc m).1,
           Ok ([], Some ((fun k => (k, [])) <$> dict_keys d)))
      /\ tokenize_loom argsort self m ts
        = ((filter_pass_loc m).1,
           Ok ([], Some ((fun k => (k, [])) <$> dict_keys d)))).
Proof.
  intros Hspec Hcs Hcols Hd Hnd Hk Hattr.
  destruct (gene_columns_length _ _ _ _ _ Hcols) as [Hnfv Htoks].
  pose proof (fun c => anndata_cell_tokens argsort (X_sparse m) ts loc nfv
                         toks c Hspec Hnfv Htoks) as Hat.
  pose proof (fun c => loom_cell_tokens argsort ts loc nfv toks c
                         Hspec Hnfv Htoks) as Hlt.
  rewrite (tokenize_anndata_eq _ _ _ _ _ loc nfv toks) by done.
  rewrite (tokenize_loom_eq _ _ _ _ loc nfv toks) by done.
  rewrite (tokenize_cells_some _ _ _ _ _ _ d Hat) by done.
  rewrite (tokenize_cells_some _ _ _ _ _ _ d Hlt) by done.
  rewrite dict_of_empty_lists_eq by done.
  assert (forallb (has_attr m) (dict_keys d) = false) as Hall.
  { apply not_true_is_false. intros Hall.
    rewrite forallb_forall in Hall.
    apply list_elem_of_In, Hall in Hk. congruence. }
  split.
  - intros Hne. destruct (included m) as [|c sub]; [done|].
    by rewrite !extend_columns_empty_lists, Hall.
  - by intros ->.
Qed.

Lemma missing_attribute_witness :
  let m := sample_matrix false
             [sample_cell 14 [4%float; 7%float; 10%float] 1] in
  (included m <> [] ->
   tokenize_anndata argsort_stable sample_tokenizer_batch m 14 512
     = ((filter_pass_loc m).1, Raise KeyError)
   /\ tokenize_loom argsort_stable sample_tokenizer_batch m 14
     = ((filter_pass_loc m).1, Raise AttributeError))
  /\ (included m = [] ->
      tokenize_anndata argsort_stable sample_tokenizer_batch m 14 512
        = ((filter_pass_loc m).1,
           Ok ([], Some ((fun k => (k, []))
                           <$> dict_keys [("batch"%string, "b"%string)])))
      /\ tokenize_loom argsort_stable sample_tokenizer_batch m 14
        = ((filter_pass_loc m).1,
           Ok ([], Some ((fun k => (k, []))
                           <$> dict_keys [("batch"%string, "b"%string)])))).
Proof.
  apply (missing_attribute argsort_stable sample_tokenizer_batch
           (sample_matrix false
              [sample_cell 14 [4%float; 7%float; 10%float] 1])
           14 512 [0; 2] [1%float; 2%float] [0%Z; 1%Z]
           [("batch"%string, "b"%string)] "batch").
  - apply argsort_stable_spec.
  - lia.
  - vm_compute. reflexivity.
  - reflexivity.
  - apply (bool_decide_unpack _). vm_compute. exact I.
  - apply (bool_decide_unpack _). vm_compute. exact I.
  - vm_compute. reflexivity.
Defined.





(** ** [tokenize_files] and the script *)

Lemma dict_get_fmap_keys {V} (f : string -> V) (ks : list string) k :
  k ∈ ks -> dict_get k ((fun k => (k, f k)) <$> ks) = Some (f k).
Proof.
  induction ks as [|k' ks IH]; [by intros ?%elem_of_nil|].
  cbn. destruct (decide (k = k')) as [->|Hne]; [done|].
  intros [?|Hin]%elem_of_cons; [done|]. by apply IH.
Qed.

Lemma dict_get_head_notin {V} (k : string) (v : V) (d1 d2 : dict V) :
  k ∉ dict_keys d1 -> dict_get k (d1 ++ (k, v) :: d2) = Some v.
Proof.
  intros Hk. rewrite dict_get_app_notin by done. cbn.
  by rewrite decide_True.
Qed.

Lemma dict_set_head_notin {V} (k : string) (v v' : V) (d1 d2 : dict V) :
  k ∉ dict_keys d1 ->
  dict_set k v' (d1 ++ (k, v) :: d2) = d1 ++ (k, v') :: d2.
Proof.
  intros Hk. rewrite dict_set_app_notin by done. cbn.
  by rewrite decide_True.
Qed.

(** The loop of [tokenize_files] moves every column of the file under the
    output name of its attribute. *)
Lemma for_rename (d : dict string) (fcm : dict (list pyval))
    (col : string -> list pyval) :
  NoDup (dict_keys d) -> NoDup (dict_values d) ->
  (forall k, k ∈ dict_keys d -> dict_get k fcm = Some (col k)) ->
  for_ (dict_keys d)
    (fun k cell_metadata =>
       name ← or_raise KeyError (dict_get k d);
       old ← or_raise KeyError (dict_get name cell_metadata);
       fcm' ← or_raise TypeError (Some fcm);
       c ← or_raise KeyError (dict_get k fcm');
       Ok (dict_set name (old ++ c) cell_metadata))
    (dict_of_empty_lists (dict_values d))
  = Ok ((fun kv : string * string => (kv.2, col kv.1)) <$> d).
Proof.
  intros Hk Hv Hcol. rewrite dict_of_empty_lists_eq by done.
  assert (forall d1 d2, d = d1 ++ d2 ->
    for_ (dict_keys d2)
      (fun k cell_metadata =>
         name ← or_raise KeyError (dict_get k d);
         old ← or_raise KeyError (dict_get name cell_metadata);
         fcm' ← or_raise TypeError (Some fcm);
         c ← or_raise KeyError (dict_get k fcm');
         Ok (dict_set name (old ++ c) cell_metadata))
      (((fun kv : string * string => (kv.2, col kv.1)) <$> d1)
       ++ ((fun v => (v, [])) <$> dict_values d2))
    = Ok (((fun kv : string * string => (kv.2, col kv.1)) <$> d1)
          ++ ((fun kv : string * string => (kv.2, col kv.1)) <$> d2)))
    as Hgen.
  { intros d1 d2. revert d1. induction d2 as [|[k name] d2 IH]; intros d1 Hd.
    - done.
    - assert (k ∉ dict_keys d1) as Hk1.
      { subst d. unfold dict_keys in Hk. rewrite fmap_app in Hk.
        apply NoDup_app in Hk as (_ & Hk & _). intros Hin.
        apply (Hk k Hin). left. }
      assert (name ∉ dict_keys
                ((fun kv : string * string => (kv.2, col kv.1)) <$> d1))
        as Hn1.
      { subst d. unfold dict_values, dict_keys in *.
        rewrite fmap_app in Hv. apply NoDup_app in Hv as (_ & Hv & _).
        rewrite <- list_fmap_compose. intros Hin.
        apply (Hv name); [|left].
        erewrite list_fmap_ext; [exact Hin|done]. }
      cbn [dict_keys dict_values fmap list_fmap for_ fst snd].
      rewrite Hd at 1. rewrite dict_get_head_notin by done.
      cbn [or_raise mbind res_bind].
      rewrite dict_get_head_notin by done. cbn [or_raise mbind res_bind].
      rewrite (Hcol k) by (rewrite Hd; unfold dict_keys;
        rewrite fmap_app; apply elem_of_app; right; left).
      cbn [or_raise mbind res_bind app].
      rewrite dict_set_head_notin by done.
      specialize (IH (d1 ++ [(k, name)])).
      rewrite fmap_app, <- !app_assoc in IH. cbn in IH.
      unfold dict_keys, dict_values in *. by apply IH. }
  apply (Hgen [] d). done.
Qed.

(** The per-file function that [tokenize_files] selects, when the
    requested attributes all exist. *)
Lemma per_file_custom argsort self m (file_format : string) loc nfv toks d :
  ArgsortSpec argsort ->
  gene_columns self (ensembl_id m) = Ok (loc, nfv, toks) ->
  custom_attr_name_dict self = Some d ->
  NoDup (dict_keys d) ->
  (forall k, k ∈ dict_keys d -> has_attr m k = true) ->
  exists rows,
    (if decide (file_format = "loom"%string)
     then tokenize_loom argsort self m default_target_sum
     else tokenize_anndata argsort self m default_target_sum
            default_chunk_size)
    = ((filter_pass_loc m).1,
       Ok (rows,
           Some ((fun k => (k, (fun c => get_attr c k) <$> included m))
                 <$> dict_keys d))).
Proof.
  intros Hspec Hcols Hd Hk Hattr.
  destruct (gene_columns_length _ _ _ _ _ Hcols) as [Hnfv Htoks].
  pose proof (fun c => anndata_cell_tokens argsort (X_sparse m)
                         default_target_sum loc nfv toks c Hspec Hnfv Htoks)
    as Hat.
  pose proof (fun c => loom_cell_tokens argsort default_target_sum loc nfv
                         toks c Hspec Hnfv Htoks) as Hlt.
  destruct (decide _).
  - eexists. rewrite (tokenize_loom_eq _ _ _ _ loc nfv toks) by done.
    by rewrite (tokenize_cells_custom _ _ _ _ _ d Hlt).
  - eexists. rewrite (tokenize_anndata_eq _ _ _ _ _ loc nfv toks);
      [|done|unfold default_chunk_size; lia|done].
    by rewrite (tokenize_cells_custom _ _ _ _ _ d Hat).
Qed.

(** The loop of [tokenize_files] on the metadata of such a file. *)
Lemma rename_custom (d : dict string) (sub : list Cell) :
  NoDup (dict_keys d) -> NoDup (dict_values d) ->
  for_ (dict_keys d)
    (fun (k : string) (cell_metadata : dict (list pyval)) =>
       name ← or_raise KeyError (dict_get k d);
       old ← or_raise KeyError (dict_get name cell_metadata);
       fcm' ← or_raise TypeError
                (Some (((fun k : string =>
                           (k, (fun c : Cell => get_attr c k) <$> sub))
                        <$> dict_keys d) : dict (list pyval)));
       c ← or_raise KeyError (dict_get k fcm');
       Ok (dict_set name (old ++ c) cell_metadata))
    (dict_of_empty_lists (dict_values d))
  = Ok ((fun kv : string * string =>
           (kv.2, (fun c => get_attr c kv.1) <$> sub)) <$> d).
Proof.
  intros Hk Hv.
  apply (for_rename d _ (fun k => (fun c => get_attr c k) <$> sub));
    [done..|].
  intros k Hin.
  by rewrite (dict_get_fmap_keys (fun k => (fun c => get_attr c k) <$> sub)).
Qed.

(** What [tokenize_files] returns when the requested attributes all
    exist. *)
Lemma tokenize_files_custom
    (argsort : list float -> list nat) (self : TranscriptomeTokenizer)
    (m : Matrix) (file_format : string)
    (loc : list nat) (nfv : list float) (toks : list Z) (d : dict string) :
  ArgsortSpec argsort ->
  gene_columns self (ensembl_id m) = Ok (loc, nfv, toks) ->
  custom_attr_name_dict self = Some d ->
  NoDup (dict_keys d) ->
  NoDup (dict_values d) ->
  (forall k, k ∈ dict_keys d -> has_attr m k = true) ->
  tokenize_files argsort self m file_format
  = (("Tokenizing " ++ path m)%string :: (filter_pass_loc m).1,
     Ok ([], Some ((fun kv : string * string =>
                      (kv.2, (fun c => get_attr c kv.1) <$> included m))
                   <$> d))).
Proof.
  intros Hspec Hcols Hd Hk Hv Hattr.
  unfold tokenize_files. cbv zeta.
  destruct (per_file_custom argsort self m file_format loc nfv toks d)
    as [rows ->]; [done..|].
  f_equal. cbn [mbind res_bind]. rewrite Hd.
  match goal with
  | |- (Some <$> ?x) ≫= _ = _ =>
      assert (x = Ok ((fun kv : string * string =>
                         (kv.2, (fun c => get_attr c kv.1) <$> included m))
                      <$> d)) as ->; [|done]
  end.
  by apply rename_custom.
Qed.

(** X8: with custom attributes requested (a dictionary from attribute names
    to distinct output names) that the matrix all has, [tokenize_files]
    returns each requested attribute of the included cells under its output
    name, in the order of the request, after the line that announces the
    file; the list of token sequences it returns is empty. *)
Theorem tokenize_files_renames
    (argsort : list float -> list nat) (self : TranscriptomeTokenizer)
    (m : Matrix) (file_format : string)
    (loc : list nat) (nfv : list float) (toks : list Z) (d : dict string) :
  ArgsortSpec argsort ->
  gene_columns self (ensembl_id m) = Ok (loc, nfv, toks) ->
  custom_attr_name_dict self = Some d ->
  NoDup (dict_keys d) ->
  NoDup (dict_values d) ->
  (forall k, k ∈ dict_keys d -> has_attr m k = true) ->
  tokenize_files argsort self m file_format
  = (("Tokenizing " ++ path m)%string :: (filter_pass_loc m).1,
     Ok ([], Some ((fun kv : string * string =>
                      (kv.2, (fun c => get_attr c kv.1) <$> included m))
                   <$> d))).
Proof. apply tokenize_files_custom. Qed.

Lemma tokenize_files_renames_witness :
  let m := sample_matrix true
             [sample_cell 14 [4%float; 7%float; 10%float] 1;
              sample_cell 14 [10%float; 0%float; 4%float] 0] in
  tokenize_files argsort_stable sample_tokenizer_attrs m "h5ad"
  = (("Tokenizing " ++ path m)%string :: (filter_pass_loc m).1,
     Ok ([], Some ((fun kv : string * string =>
                      (kv.2, (fun c => get_attr c kv.1) <$> included m))
                   <$> [("cell_type"%string, "ct"%string);
                        ("n_counts"%string, "n"%string)]))).
Proof.
  apply (tokenize_files_renames argsort_stable sample_tokenizer_attrs
           (sample_matrix true
              [sample_cell 14 [4%float; 7%float; 10%float] 1;
               sample_cell 14 [10%float; 0%float; 4%float] 0])
           "h5ad" [0; 2] [1%float; 2%float] [0%Z; 1%Z]).
  - apply argsort_stable_spec.
  - vm_compute. reflexivity.
  - reflexivity.
  - apply (bool_decide_unpack _). vm_compute. exact I.
  - apply (bool_decide_unpack _). vm_compute. exact I.
  - intros k Hk. apply (bool_decide_unpack _).
    revert k Hk. apply list.Forall_forall.
    repeat constructor.
Defined.




Lemma dict_set_nonempty {V} (k : string) (v : V) (d : dict V) :
  dict_set k v d <> [].
Proof. destruct d as [|[k' v'] d]; cbn; [done|]. by destruct (decide _). Qed.

Lemma dict_update_nonempty {V} (r md : dict V) :
  md <> [] -> dict_update r md <> [].
Proof.
  unfold dict_update.
  assert (forall (l : dict V) (acc : dict V), acc <> [] ->
            foldl (fun acc kv => dict_set kv.1 kv.2 acc) acc l <> []) as Hgen.
  { induction l as [|kv l IH]; intros acc Hacc; [done|].
    cbn. apply IH, dict_set_nonempty. }
  destruct md as [|kv md]; [done|]. intros _. cbn.
  apply Hgen, dict_set_nonempty.
Qed.

(** X10: with custom attributes requested, [tokenize_data] cannot build its
    dataset once a cell is included: the metadata columns then have one
    entry per included cell while [input_ids] has none, and
    [Dataset.from_dict] rejects columns of unequal length; nothing is
    saved. *)
Theorem tokenize_data_metadata_mismatch
    (argsort : list float -> list nat) (self : TranscriptomeTokenizer)
    (path_join : string -> string -> string)
    (m : Matrix) (output_directory output_prefix file_format : string)
    (loc : list nat) (nfv : list float) (toks : list Z) (d : dict string) :
  ArgsortSpec argsort ->
  gene_columns self (ensembl_id m) = Ok (loc, nfv, toks) ->
  custom_attr_name_dict self = Some d ->
  d <> [] ->
  NoDup (dict_keys d) ->
  NoDup (dict_values d) ->
  "input_ids"%string ∉ dict_values d ->
  (forall k, k ∈ dict_keys d -> has_attr m k = true) ->
  included m <> [] ->
  tokenize_data argsort self path_join m output_directory output_prefix
    file_format false
  = (("Tokenizing " ++ path m)%string
       :: (filter_pass_loc m).1 ++ ["Creating dataset."%string],
     Raise ArrowInvalid).
Proof.
  intros Hspec Hcols Hd Hne Hk Hv Hids Hattr Hinc.
  unfold tokenize_data.
  rewrite (tokenize_files_custom argsort self m file_format loc nfv toks d)
    by done.
  set (md := (fun kv : string * string =>
                (kv.2, (fun c => get_attr c kv.1) <$> included m)) <$> d).
  assert (create_dataset self [] (Some md) false false
          = (["Creating dataset."%string], Raise ArrowInvalid)) as ->; [|done].
  unfold create_dataset. cbv zeta. rewrite Hd. f_equal.
  cbn [or_raise mbind res_bind fmap list_fmap].
  rewrite dict_update_head.
  2:{ unfold md, dict_keys. rewrite <- list_fmap_compose.
      intros Hin. apply Hids. unfold dict_values.
      erewrite list_fmap_ext; [exact Hin|done]. }
  assert (md <> []) as Hmd by (unfold md; by destruct d).
  pose proof (dict_update_nonempty [] md Hmd) as Hnonempty.
  assert (Forall (fun kc : string * list pyval =>
                    length kc.2 = length (included m))
                 (dict_update [] md)) as Hlen.
  { apply dict_update_Forall; [done|]. unfold md.
    apply Forall_fmap, list.Forall_forall. intros kv _. cbn.
    by rewrite length_fmap. }
  destruct (dict_update [] md) as [|[k c] R]; [done|].
  apply Forall_cons in Hlen as [Hc _]. cbn in Hc.
  unfold from_dict. cbn [forallb snd length Nat.eqb andb].
  destruct c as [|x c]; [by destruct (included m)|].
  done.
Qed.

Lemma tokenize_data_metadata_mismatch_witness :
  let m := sample_matrix false
             [sample_cell 14 [4%float; 7%float; 10%float] 1] in
  tokenize_data argsort_stable sample_tokenizer_attrs sample_path_join m
    "out" "tokens" "loom" false
  = (("Tokenizing " ++ path m)%string
       :: (filter_pass_loc m).1 ++ ["Creating dataset."%string],
     Raise ArrowInvalid).
Proof.
  apply (tokenize_data_metadata_mismatch argsort_stable sample_tokenizer_attrs
           sample_path_join
           (sample_matrix false
              [sample_cell 14 [4%float; 7%float; 10%float] 1])
           "out" "tokens" "loom" [0; 2] [1%float; 2%float] [0%Z; 1%Z]
           [("cell_type"%string, "ct"%string);
            ("n_counts"%string, "n"%string)]).
  - apply argsort_stable_spec.
  - vm_compute. reflexivity.
  - reflexivity.
  - discriminate.
  - apply (bool_decide_unpack _). vm_compute. exact I.
  - apply (bool_decide_unpack _). vm_compute. exact I.
  - apply (bool_decide_unpack _). vm_compute. exact I.
  - intros k Hk. apply (bool_decide_unpack _).
    revert k Hk. apply list.Forall_forall.
    repeat constructor.
  - discriminate.
Defined.

(** ** More on the dataset *)

Lemma row_at_single (k : string) (l : list pyval) i :
  row_at [(k, l)] i
  = match l !! i with
    | Some v => Ok [(k, v)]
    | None => Raise IndexError
    end.
Proof. unfold row_at. cbn. by destruct (l !! i). Qed.

Lemma rows_single (k : string) (pre c : list pyval) :
  mapM (row_at [(k, pre ++ c)]) (seq (length pre) (length c))
  = Ok ((fun v => [(k, v)]) <$> c).
Proof.
  revert pre. induction c as [|x c IH]; intros pre; [done|].
  cbn [length seq mapM].
  rewrite row_at_single, list_lookup_middle by done.
  cbn [mbind res_bind].
  specialize (IH (pre ++ [x])).
  rewrite <- app_assoc, length_app, Nat.add_1_r in IH. cbn [app] in IH.
  by rewrite IH.
Qed.

(** X11: without custom attributes, [create_dataset] (building the table
    with [Dataset.from_dict]) ignores [cell_metadata] and returns, for each
    token sequence in order, a row with exactly the columns [input_ids]
    (the first 2048 tokens) and [length]; when the uncropped sequence is
    asked for, the row also has [input_ids_uncropped] and
    [length_uncropped], holding the whole sequence and its own length. *)
Theorem create_dataset_plain
    (self : TranscriptomeTokenizer) (tokenized_cells : list (list Z))
    (cell_metadata : option (dict (list pyval)))
    (keep_uncropped_input_ids : bool) :
  custom_attr_name_dict self = None ->
  create_dataset self tokenized_cells cell_metadata false
    keep_uncropped_input_ids
  = (["Creating dataset."%string],
     Ok ((fun toks : list Z =>
            if keep_uncropped_input_ids
            then [("input_ids"%string, PyTokens (take 2048 toks));
                  ("input_ids_uncropped"%string, PyTokens toks);
                  ("length_uncropped"%string,
                   PyInt (Z.of_nat (length toks)));
                  ("length"%string,
                   PyInt (Z.of_nat (Nat.min (length toks) 2048)))]
            else [("input_ids"%string, PyTokens (take 2048 toks));
                  ("length"%string,
                   PyInt (Z.of_nat (Nat.min (length toks) 2048)))])
         <$> tokenized_cells)).
Proof.
  intros Hnone. unfold create_dataset. cbv zeta. rewrite Hnone. f_equal.
  cbn [mbind res_bind]. unfold from_dict.
  cbn [forallb snd andb]. rewrite Nat.eqb_refl. cbn [andb].
  pose proof (rows_single "input_ids" [] (PyTokens <$> tokenized_cells))
    as Hrows.
  cbn [app length] in Hrows. rewrite Hrows. cbn [mbind res_bind].
  rewrite <- list_fmap_compose, mapM_res_fmap.
  apply mapM_res_ok. intros toks _.
  unfold format_cell_features, getitem.
  destruct keep_uncropped_input_ids;
    repeat first
      [ rewrite decide_True by done
      | rewrite decide_False by done
      | progress cbn -[take length Nat.min Z.of_nat] ];
    by rewrite length_take, Nat.min_comm.
Qed.

Lemma create_dataset_plain_witness :
  create_dataset sample_tokenizer [[1%Z; 0%Z]; []]
    (Some [("ct"%string, [PyStr "T"])]) false true
  = (["Creating dataset."%string],
     Ok ((fun toks : list Z =>
            if true
            then [("input_ids"%string, PyTokens (take 2048 toks));
                  ("input_ids_uncropped"%string, PyTokens toks);
                  ("length_uncropped"%string,
                   PyInt (Z.of_nat (length toks)));
                  ("length"%string,
                   PyInt (Z.of_nat (Nat.min (length toks) 2048)))]
            else [("input_ids"%string, PyTokens (take 2048 toks));
                  ("length"%string,
                   PyInt (Z.of_nat (Nat.min (length toks) 2048)))])
         <$> [[1%Z; 0%Z]; []])).
Proof.
  apply (create_dataset_plain sample_tokenizer [[1%Z; 0%Z]; []]
           (Some [("ct"%string, [PyStr "T"])]) true).
  reflexivity.
Defined.

Lemma dict_set_same {V} (k : string) (v : V) (d : dict V) :
  dict_get k d = Some v -> dict_set k v d = d.
Proof.
  induction d as [|[k' v'] d IH]; cbn; [done|].
  destruct (decide (k = k')) as [->|Hne].
  - by intros [= ->].
  - intros Hget. by rewrite IH.
Qed.

Lemma substring_prefix_idem (n : nat) (s : string) :
  String.substring 0 n (String.substring 0 n s) = String.substring 0 n s.
Proof.
  revert s. induction n as [|n IH]; intros [|c s]; cbn; try done.
  by rewrite IH.
Qed.

Lemma crop_idem v v' : crop v = Ok v' -> crop v' = Ok v'.
Proof.
  destruct v; cbn; try done; intros [= <-]; cbn.
  - by rewrite substring_prefix_idem.
  - by rewrite take_take, Nat.min_id.
Qed.

Lemma crop_len v v' : crop v = Ok v' -> exists n, py_len v' = Ok n.
Proof. destruct v; cbn; try done; intros [= <-]; cbn; eauto. Qed.

(** X12: cropping is idempotent.  A row produced by [format_cell_features]
    (without the uncropped copy) is left as it is when the function is
    applied to it again. *)
Theorem format_cell_features_idempotent
    (example row : dict pyval) :
  format_cell_features false example = Ok row ->
  format_cell_features false row = Ok row.
Proof.
  unfold format_cell_features, getitem. cbn [mbind res_bind].
  destruct (dict_get "input_ids" example) as [ids|] eqn:Hids; cbn; [|done].
  destruct (crop ids) as [cropped|] eqn:Hcrop; cbn; [|done].
  rewrite dict_get_set_eq. cbn.
  destruct (crop_len _ _ Hcrop) as [n Hn]. rewrite Hn. cbn.
  intros [= <-].
  rewrite dict_get_set_ne, dict_get_set_eq by done. cbn.
  rewrite (crop_idem _ _ Hcrop). cbn.
  rewrite (dict_set_same "input_ids" cropped)
    by (by rewrite dict_get_set_ne, dict_get_set_eq).
  rewrite dict_get_set_ne, dict_get_set_eq by done. cbn.
  rewrite Hn. cbn.
  by rewrite (dict_set_same "length" (PyInt n)) by apply dict_get_set_eq.
Qed.

Lemma format_cell_features_idempotent_witness :
  format_cell_features false
    [("input_ids"%string, PyTokens [1%Z; 0%Z]); ("length"%string, PyInt 2)]
  = Ok [("input_ids"%string, PyTokens [1%Z; 0%Z]); ("length"%string, PyInt 2)].
Proof.
  apply (format_cell_features_idempotent
           [("input_ids"%string, PyTokens [1%Z; 0%Z])]).
  vm_compute. reflexivity.
Defined.

(** ** The chunks of [tokenize_anndata] *)

Lemma range_fuel_lookup fuel s stop step k i :
  range_fuel fuel s stop step !! k = Some i -> i = s + k * step /\ i < stop.
Proof.
  revert s k. induction fuel as [|fuel IH]; intros s k; cbn; [done|].
  destruct (decide (s < stop)); [|done].
  destruct k as [|k]; cbn.
  - intros [= <-]. lia.
  - intros Hi%IH. lia.
Qed.

(** X13: the loop of [tokenize_anndata] cuts the included positions into
    consecutive slices that, put end to end, give them back in order; the
    slice of round [k] starts at position [k * chunk_size], no slice is
    empty or longer than [chunk_size], and every slice but the last has
    exactly [chunk_size] positions. *)
Theorem anndata_chunks_partition (chunk_size : nat) (fpl : list nat) :
  1 <= chunk_size ->
  exists starts,
    py_range 0 (length fpl) chunk_size = Ok starts
    /\ concat ((fun i => take chunk_size (drop i fpl)) <$> starts) = fpl
    /\ (forall k i, starts !! k = Some i ->
          i = k * chunk_size
          /\ 1 <= length (take chunk_size (drop i fpl)) <= chunk_size
          /\ (S k < length starts ->
              length (take chunk_size (drop i fpl)) = chunk_size)).
Proof.
  intros Hcs. exists (range_fuel (length fpl) 0 (length fpl) chunk_size).
  split; [by apply py_range_ok|]. split.
  - by rewrite chunks_concat by lia.
  - intros k i Hk. pose proof Hk as [-> Hlt]%range_fuel_lookup.
    split; [lia|]. rewrite length_take, length_drop. split; [lia|].
    intros Hnext.
    destruct (lookup_lt_is_Some_2 _ _ Hnext) as [i' Hi'].
    apply range_fuel_lookup in Hi' as [-> Hlt']. cbn in Hlt'. lia.
Qed.

Lemma anndata_chunks_partition_witness :
  exists starts,
    py_range 0 (length [3; 4; 8; 9; 11]) 2 = Ok starts
    /\ concat ((fun i => take 2 (drop i [3; 4; 8; 9; 11])) <$> starts)
       = [3; 4; 8; 9; 11]
    /\ (forall k i, starts !! k = Some i ->
          i = k * 2
          /\ 1 <= length (take 2 (drop i [3; 4; 8; 9; 11])) <= 2
          /\ (S k < length starts ->
              length (take 2 (drop i [3; 4; 8; 9; 11])) = 2)).
Proof.
  apply (anndata_chunks_partition 2 [3; 4; 8; 9; 11]). lia.
Defined.

(** X14: a chunk size of zero makes [tokenize_anndata] fail with the
    [ValueError] of [range], after the gene columns were set up and the
    cells to include were determined, even when no cell is included. *)
Theorem chunk_size_zero
    (argsort : list float -> list nat) (self : TranscriptomeTokenizer)
    (m : Matrix) (ts : float) (loc : list nat) (nfv : list float) (toks : list Z) :
  gene_columns self (ensembl_id m) = Ok (loc, nfv, toks) ->
  tokenize_anndata argsort self m ts 0
  = ((filter_pass_loc m).1, Raise ValueError).
Proof.
  intros Hcols. unfold tokenize_anndata. rewrite Hcols.
  by destruct (filter_pass_loc m).
Qed.

Lemma chunk_size_zero_witness :
  let m := sample_matrix true [] in
  tokenize_anndata argsort_stable sample_tokenizer m 14 0
  = ((filter_pass_loc m).1, Raise ValueError).
Proof.
  apply (chunk_size_zero argsort_stable sample_tokenizer
           (sample_matrix true []) 14 [0; 2] [1%float; 2%float] [0%Z; 1%Z]).
  vm_compute. reflexivity.
Defined.

(** ** What the tokenizer never reads *)

Lemma mapM_res_Forall2 {A B} (f g : A -> res B) (l l' : list A) :
  Forall2 (fun x y => f x = g y) l l' -> mapM f l = mapM g l'.
Proof.
  induction 1 as [|x y l l' Hxy _ IH]; [done|]. cbn. by rewrite Hxy, IH.
Qed.

Lemma subview_norm_column_agree ts loc nfv (c c' : Cell) :
  n_counts c' = n_counts c ->
  (forall j, j ∈ loc -> counts c' j = counts c j) ->
  subview_norm_column ts loc nfv c' = subview_norm_column ts loc nfv c.
Proof.
  intros Hn Hc. unfold subview_norm_column. rewrite Hn.
  assert (counts c' <$> loc = counts c <$> loc) as ->; [|done].
  apply Forall_fmap_ext_1, list.Forall_forall. intros j Hj. by apply Hc.
Qed.

Lemma X_norm_row_agree sparse ts loc nfv (c c' : Cell) :
  n_counts c' = n_counts c ->
  (forall j, j ∈ loc -> counts c' j = counts c j) ->
  X_norm_row sparse ts loc nfv c' = X_norm_row sparse ts loc nfv c.
Proof.
  intros Hn Hc. unfold X_norm_row. cbv zeta. rewrite Hn.
  assert (counts c' <$> loc = counts c <$> loc) as ->; [|done].
  apply Forall_fmap_ext_1, list.Forall_forall. intros j Hj. by apply Hc.
Qed.

Lemma tokenize_cells_agree self missing (m m' : Matrix)
    (tok : Cell -> res (list Z)) (sub sub' : list Cell) :
  (forall k, has_attr m' k = has_attr m k) ->
  Forall2 (fun c c' =>
             tok c' = tok c
             /\ (forall k, has_attr m k = true ->
                           get_attr c' k = get_attr c k)) sub sub' ->
  tokenize_cells self missing m' tok sub'
  = tokenize_cells self missing m tok sub.
Proof.
  intros Hattr Hsub. unfold tokenize_cells.
  assert (mapM tok sub' = mapM tok sub) as Hrows.
  { symmetry. apply mapM_res_Forall2.
    eapply Forall2_impl; [exact Hsub|]. cbn. by intros c c' [-> _]. }
  assert (add_metadata self missing m' sub' (initial_metadata self)
          = add_metadata self missing m sub (initial_metadata self)) as Hmd.
  { unfold add_metadata. destruct (custom_attr_name_dict self); [|done].
    destruct (initial_metadata self) as [| |d0]; [done..|]. f_equal.
    apply for_ext. intros k s _.
    destruct (dict_get k s); cbn; [|done].
    assert (attr_column missing m' sub' k = attr_column missing m sub k)
      as ->; [|done].
    unfold attr_column. rewrite Hattr.
    destruct (has_attr m k) eqn:Hk; [|done]. f_equal.
    clear -Hsub Hk. induction Hsub as [|c c' sub sub' (_ & Hc) _ IH];
      [done|].
    cbn. by rewrite IH, (Hc k Hk). }
  destruct Hsub as [|c c' sub sub' Hc Hsub]; [done|].
  by rewrite Hrows, Hmd.
Qed.

(** X15: the tokenizer reads nothing but what it uses.  Two matrices with
    the same gene identifiers, the same declared attributes, the same kind
    of [X] and the same number of included cells give the same result in
    both per-file functions as soon as their included cells agree,
    pairwise, on the total count, on the counts in the columns of genes
    that have a factor, and on the attributes that exist; cells that are
    not included and columns of genes without a factor have no
    influence. *)
Theorem unread_data_irrelevant
    (argsort : list float -> list nat) (self : TranscriptomeTokenizer)
    (m m' : Matrix) (ts : float) (cs : nat)
    (loc : list nat) (nfv : list float) (toks : list Z) :
  ArgsortSpec argsort ->
  1 <= cs ->
  gene_columns self (ensembl_id m) = Ok (loc, nfv, toks) ->
  path m' = path m ->
  ensembl_id m' = ensembl_id m ->
  has_filter_pass m' = has_filter_pass m ->
  attr_names m' = attr_names m ->
  X_sparse m' = X_sparse m ->
  Forall2 (fun c c' =>
             n_counts c' = n_counts c
             /\ (forall j, j ∈ loc -> counts c' j = counts c j)
             /\ (forall k, has_attr m k = true ->
                           get_attr c' k = get_attr c k))
          (included m) (included m') ->
  tokenize_anndata argsort self m' ts cs = tokenize_anndata argsort self m ts cs
  /\ tokenize_loom argsort self m' ts = tokenize_loom argsort self m ts.
Proof.
  intros Hspec Hcs Hcols Hpath Hids Hflag Hnames Hsparse Hcells.
  assert (gene_columns self (ensembl_id m') = Ok (loc, nfv, toks)) as Hcols'
    by (by rewrite Hids).
  assert (forall k, has_attr m' k = has_attr m k) as Hattr.
  { intros k. unfold has_attr. by rewrite Hflag, Hnames. }
  assert ((filter_pass_loc m').1 = (filter_pass_loc m).1) as Hout.
  { unfold filter_pass_loc. rewrite Hflag, Hpath.
    by destruct (has_filter_pass m). }
  rewrite !(tokenize_anndata_eq _ _ _ _ _ loc nfv toks) by done.
  rewrite !(tokenize_loom_eq _ _ _ _ loc nfv toks) by done.
  rewrite Hout, Hsparse. split; f_equal.
  - apply tokenize_cells_agree; [done|].
    eapply Forall2_impl; [exact Hcells|]. cbn.
    intros c c' (Hn & Hc & Hg). split; [|done].
    unfold anndata_cell. cbv zeta. by rewrite (X_norm_row_agree _ _ _ _ c c').
  - apply tokenize_cells_agree; [done|].
    eapply Forall2_impl; [exact Hcells|]. cbn.
    intros c c' (Hn & Hc & Hg). split; [|done].
    unfold loom_cell. by rewrite (subview_norm_column_agree _ _ _ c c').
Qed.

Lemma unread_data_irrelevant_witness :
  let m := sample_matrix true
             [sample_cell 14 [4%float; 7%float; 10%float] 1;
              sample_cell 14 [10%float; 0%float; 4%float] 0] in
  let m' := sample_matrix true
              [sample_cell 9 [1%float; 1%float; 1%float] 2;
               sample_cell 14 [4%float; 99%float; 10%float] 1] in
  tokenize_anndata argsort_stable sample_tokenizer m' 14 512
    = tokenize_anndata argsort_stable sample_tokenizer m 14 512
  /\ tokenize_loom argsort_stable sample_tokenizer m' 14
    = tokenize_loom argsort_stable sample_tokenizer m 14.
Proof.
  apply (unread_data_irrelevant argsort_stable sample_tokenizer
           (sample_matrix true
              [sample_cell 14 [4%float; 7%float; 10%float] 1;
               sample_cell 14 [10%float; 0%float; 4%float] 0])
           (sample_matrix true
              [sample_cell 9 [1%float; 1%float; 1%float] 2;
               sample_cell 14 [4%float; 99%float; 10%float] 1])
           14 512 [0; 2] [1%float; 2%float] [0%Z; 1%Z]).
  - apply argsort_stable_spec.
  - lia.
  - vm_compute. reflexivity.
  - reflexivity.
  - reflexivity.
  - reflexivity.
  - reflexivity.
  - reflexivity.
  - change (Forall2
              (fun c c' =>
                 n_counts c' = n_counts c
                 /\ (forall j, j ∈ [0; 2] -> counts c' j = counts c j)
                 /\ (forall k,
                       has_attr (sample_matrix true
                         [sample_cell 14 [4%float; 7%float; 10%float] 1;
                          sample_cell 14 [10%float; 0%float; 4%float] 0]) k
                       = true ->
                       get_attr c' k = get_attr c k))
              [sample_cell 14 [4%float; 7%float; 10%float] 1]
              [sample_cell 14 [4%float; 99%float; 10%float] 1]).
    constructor; [|constructor]. split; [reflexivity|]. split.
    + intros j Hj.
      repeat (apply elem_of_cons in Hj as [->|Hj]; [reflexivity|]).
      by apply elem_of_nil in Hj.
    + intros k Hk. unfold get_attr. cbn.
      repeat destruct (decide _); done.
Defined.

(** ** Expressed genes and tokens *)






(** ** Ties *)


